(** * The texture system of libtexture/texfile.cpp

    A shallow embedding of [TextureFile], [Tile] and [TextureSystemImpl]
    (file registry, tile cache, [gettextureinfo], [texture] and
    [texture_lookup]) together with the properties checked against it.

    Conventions of the embedding:
    - a C++ [int] is a [Z]; signed overflow is undefined in C++, so no
      wrap-around exists to be written out and the arithmetic is that of [Z];
    - a C++ [float] is an IEEE binary32 number ([F32.float]);
    - a shared pointer to a [TextureFile] is the file's name: the registry
      holds one [TextureFile] per name and never erases an entry;
    - code that can dereference a null pointer, fail an [ASSERT], index a
      caller's array out of its extent or loop without end returns a
      [Fault]; [DASSERT] is compiled out (release build). *)

From Stdlib Require Import ZArith Lia Bool Ascii String.
From Stdlib Require Import Floats.SpecFloat.
From stdpp Require Import base decidable option list list_numbers strings.

Local Open Scope Z_scope.

(** ** Outcomes *)

Inductive fault : Type :=
| NullDeref      (* [m_input->...] on an empty [scoped_ptr] *)
| AssertFailed   (* an [ASSERT] that does not hold *)
| OutOfBounds    (* an access outside a caller-supplied array *)
| OutOfFuel.     (* the loop did not finish within the given number of turns *)

Inductive result (A : Type) : Type :=
| Ok (a : A)
| Fault (f : fault).

Arguments Ok {A} a.
Arguments Fault {A} f.

#[global] Instance result_ret : MRet result := fun A a => Ok a.
#[global] Instance result_bind : MBind result :=
  fun A B k m => match m with Ok a => k a | Fault f => Fault f end.

(** ** Association maps

    The filename map and the tile cache are hash maps the code only looks
    up, inserts into and (for the filename map) starts to iterate.  They are
    modelled as association lists without repeated keys, read through the
    lookup, insert, empty and singleton notations; a new key goes to the end,
    and the first entry is what [begin ()] points to. *)

Record amap (K V : Type) : Type := AMap { amap_car : list (K * V) }.

Arguments AMap {K V} _.
Arguments amap_car {K V} _.

Fixpoint alist_lookup {K V} `{EqDecision K} (k : K) (l : list (K * V)) : option V :=
  match l with
  | [] => None
  | (k', v) :: rest => if decide (k = k') then Some v else alist_lookup k rest
  end.

Fixpoint alist_insert {K V} `{EqDecision K} (k : K) (v : V) (l : list (K * V))
  : list (K * V) :=
  match l with
  | [] => [(k, v)]
  | (k', v') :: rest =>
      if decide (k = k') then (k, v) :: rest else (k', v') :: alist_insert k v rest
  end.

#[global] Instance amap_lookup {K V} `{EqDecision K} : Lookup K V (amap K V) :=
  fun k m => alist_lookup k (amap_car m).
#[global] Instance amap_insert {K V} `{EqDecision K} : Insert K V (amap K V) :=
  fun k v m => AMap (alist_insert k v (amap_car m)).
#[global] Instance amap_empty {K V} : Empty (amap K V) := AMap [].
#[global] Instance amap_singleton {K V} : SingletonM K V (amap K V) :=
  fun k v => AMap [(k, v)].

(** ** IEEE binary32, the C++ [float] *)

Module F32.

Definition prec : Z := 24.
Definition emax : Z := 128.

Definition float : Type := spec_float.

Definition of_int (z : Z) : float := binary_normalize prec emax z 0 false.
Definition mul : float -> float -> float := SFmul prec emax.
Definition sub : float -> float -> float := SFsub prec emax.
Definition div : float -> float -> float := SFdiv prec emax.

Definition zero : float := S754_zero false.
Definition one : float := of_int 1.
(** The literal [0.5f]. *)
Definition half : float := div one (of_int 2).
(** The decimal literal [n/d] rounded to nearest, as the compiler does. *)
Definition lit (n d : Z) : float := div (of_int n) (of_int d).

(** [floor x] for a finite [x]; the value of a conversion that does not fit
    an [int] is the x86 "integer indefinite" [-2^31]. *)
Definition floor (x : float) : Z :=
  match x with
  | S754_zero _ => 0
  | S754_finite s m e =>
      let v := if s then Z.neg m else Z.pos m in
      let f := if 0 <=? e then v * 2 ^ e else v / 2 ^ (- e) in
      if (- 2 ^ 31 <=? f) && (f <? 2 ^ 31) then f else - 2 ^ 31
  | _ => - 2 ^ 31
  end.

End F32.

Abbreviation float := F32.float.

(** Modelled from the spec: [floorfrac] of fmath.h, which is not part of the
    sources: "split into integer (si, ti) and fractional (sf, tf)"; the
    integer part is the floor, the fraction what is left over. *)
Definition floorfrac (x : float) : float * Z :=
  let i := F32.floor x in (F32.sub x (F32.of_int i), i).

(** [Imath::clamp (a, l, h)]. *)
Definition clamp (a l h : Z) : Z :=
  if a <? l then l else if h <? a then h else a.

(** ** Enumerations *)

(** [TextureOptions::Wrap], in the order of [wrap_type_name]. *)
Inductive Wrap : Type :=
| WrapDefault | WrapBlack | WrapClamp | WrapPeriodic | WrapMirror | WrapLast.

(** [TexFormat], in the order of [texture_format_name]. *)
Inductive TexFormat : Type :=
| TexFormatUnknown | TexFormatTexture | TexFormatVolume
| TexFormatShadow | TexFormatCubeFaceShadow | TexFormatVolumeShadow
| TexFormatLatLongEnv | TexFormatCubeFaceEnv | TexFormatLast.

(** [CubeLayout]: the enumerators the source names, the sentinel last. *)
Inductive CubeLayout : Type :=
| CubeUnknown | CubeThreeByTwo | CubeOneBySix | CubeLast.

#[global] Instance Wrap_eq_dec : EqDecision Wrap.
Proof. solve_decision. Defined.
#[global] Instance TexFormat_eq_dec : EqDecision TexFormat.
Proof. solve_decision. Defined.
#[global] Instance CubeLayout_eq_dec : EqDecision CubeLayout.
Proof. solve_decision. Defined.

Definition texture_format_name : list (TexFormat * string) :=
  [ (TexFormatUnknown, "unknown"); (TexFormatTexture, "Plain Texture");
    (TexFormatVolume, "Volume Texture"); (TexFormatShadow, "Shadow");
    (TexFormatCubeFaceShadow, "CubeFace Shadow");
    (TexFormatVolumeShadow, "Volume Shadow");
    (TexFormatLatLongEnv, "LatLong Environment");
    (TexFormatCubeFaceEnv, "CubeFace Environment") ]%string.

Definition texture_type_name (f : TexFormat) : string :=
  match f with
  | TexFormatUnknown => "unknown"
  | TexFormatTexture => "Plain Texture"
  | TexFormatVolume => "Volume Texture"
  | TexFormatShadow | TexFormatCubeFaceShadow | TexFormatVolumeShadow => "Shadow"
  | TexFormatLatLongEnv | TexFormatCubeFaceEnv => "Environment"
  | TexFormatLast => EmptyString
  end%string.

Definition wrap_type_name : list (Wrap * string) :=
  [ (WrapDefault, "default"); (WrapBlack, "black"); (WrapClamp, "clamp");
    (WrapPeriodic, "periodic"); (WrapMirror, "mirror") ]%string.

(** The loop shared by [decode_wrapmode] and the [textureformat] parse:
    the first entry of the table whose name is [name]. *)
Fixpoint lookup_name {A} (table : list (A * string)) (name : string) : option A :=
  match table with
  | [] => None
  | (a, n) :: rest => if String.eqb name n then Some a else lookup_name rest name
  end.

Definition decode_wrapmode (name : string) : Wrap :=
  match lookup_name wrap_type_name name with
  | Some w => w
  | None => WrapDefault
  end.

(** The characters before the first comma, and what follows it (if any). *)
Fixpoint split_comma (s : string) : string * option string :=
  match s with
  | EmptyString => (EmptyString, None)
  | String c rest =>
      if Ascii.eqb c ","%char then (EmptyString, Some rest)
      else let '(a, b) := split_comma rest in (String c a, b)
  end.

Definition parse_wrapmodes (wrapmodes : string) : Wrap * Wrap :=
  let '(swrap, after) := split_comma wrapmodes in
  let twrap := match after with Some t => t | None => swrap end in
  (decode_wrapmode swrap, decode_wrapmode twrap).

(** Whether a string holds a comma. *)
Fixpoint has_comma (s : string) : bool :=
  match s with
  | EmptyString => false
  | String c rest => Ascii.eqb c ","%char || has_comma rest
  end.

(** ** The image-reader collaborator (imageio.h, paramtype.h)

    The reader and the format description are declared outside the sources;
    they are the environment of the texture system and are modelled by what
    a file on disk offers to the calls the source makes. *)

Inductive ParamBaseType : Type :=
| PT_UNKNOWN | PT_STRING | PT_FLOAT | PT_INT | PT_MATRIX.

#[global] Instance ParamBaseType_eq_dec : EqDecision ParamBaseType.
Proof. solve_decision. Defined.

(** [ParamType (basetype, arraylen)], a scalar having [arraylen = 1]. *)
Record ParamType : Type := mkParamType { basetype : ParamBaseType; arraylen : Z }.

#[global] Instance ParamType_eq_dec : EqDecision ParamType.
Proof. solve_decision. Defined.

Definition ParamType_scalar (b : ParamBaseType) : ParamType := mkParamType b 1.

(** Modelled from the spec: [typesize] of paramtype.h, the size in bytes of
    one value ("sizeof(float)" for the texels; LP64 sizes for the rest). *)
Definition typesize (b : ParamBaseType) : Z :=
  match b with
  | PT_UNKNOWN => 0
  | PT_STRING => 8
  | PT_FLOAT => 4
  | PT_INT => 4
  | PT_MATRIX => 64
  end.

Definition datasize (t : ParamType) : Z := arraylen t * typesize (basetype t).

(** A named attribute: its type, its count and the bytes [data()] points to. *)
Record ImageIOParameter : Type := mkParam {
  p_name : string;
  p_type : ParamBaseType;
  p_nvalues : Z;
  p_data : list Byte.byte
}.

Record ImageIOFormatSpec : Type := mkSpec {
  width : Z;
  height : Z;
  full_width : Z;
  full_height : Z;
  tile_width : Z;
  tile_height : Z;
  tile_depth : Z;
  nchannels : Z;
  extra_attribs : list ImageIOParameter
}.

(** Modelled from the spec: [find_attribute], the attribute of that name. *)
Definition find_attribute (spec : ImageIOFormatSpec) (name : string)
  : option ImageIOParameter :=
  List.find (fun p => String.eqb (p_name p) name) (extra_attribs spec).

(** Modelled from the spec: [tile_pixels], "tile_width x tile_height x
    tile_depth". *)
Definition tile_pixels (spec : ImageIOFormatSpec) : Z :=
  tile_width spec * tile_height spec * tile_depth spec.

(** The C string at the start of an attribute's bytes. *)
Fixpoint until_nul (bs : list Byte.byte) : list Byte.byte :=
  match bs with
  | [] => []
  | b :: rest => if Byte.eqb b Byte.x00 then [] else b :: until_nul rest
  end.

Definition cstring (bs : list Byte.byte) : string :=
  string_of_list_byte (until_nul bs).

(** The [i]-th [int] of a byte buffer (little endian, two's complement). *)
Definition byte_val (b : Byte.byte) : Z := Z.of_N (Byte.to_N b).

Definition int_at (bs : list Byte.byte) (i : nat) : option Z :=
  match drop (4 * i)%nat bs with
  | b0 :: b1 :: b2 :: b3 :: _ =>
      let u := byte_val b0 + 2 ^ 8 * byte_val b1
               + 2 ^ 16 * byte_val b2 + 2 ^ 24 * byte_val b3 in
      Some (if u <? 2 ^ 31 then u else u - 2 ^ 32)
  | _ => None
  end.

(** What a file on disk offers: whether the reader's [open] succeeds, the
    reader's [format_name], the format of each subimage (MIP level) and the
    texels of the tile at [(x, y, z)] of a subimage, when it can be read. *)
Record ImageFile : Type := mkImageFile {
  img_format_name : string;
  img_opens : bool;
  img_subimages : list ImageIOFormatSpec;
  img_tile : Z -> Z -> Z -> Z -> option (list float)
}.

(** The files a reader exists for ([ImageInput::create] returns [NULL] for
    any other name). *)
Abbreviation Disk := (amap string ImageFile).

(** An [ImageInput]: the file it reads and its current subimage. *)
Record ImageInput : Type := mkImageInput {
  in_image : ImageFile;
  in_subimage : Z
}.

Definition ImageInput_create (disk : Disk) (filename : string) : option ImageInput :=
  match disk !! filename with
  | Some img => Some (mkImageInput img 0)
  | None => None
  end.

(** [open (name, spec)]: the format of the first subimage on success. *)
Definition ImageInput_open (inp : ImageInput) : option (ImageInput * ImageIOFormatSpec) :=
  if img_opens (in_image inp) then
    match img_subimages (in_image inp) with
    | spec :: _ => Some (mkImageInput (in_image inp) 0, spec)
    | [] => None
    end
  else None.

(** [seek_subimage (index, spec)]. *)
Definition ImageInput_seek_subimage (inp : ImageInput) (index : Z)
  : option (ImageInput * ImageIOFormatSpec) :=
  if 0 <=? index then
    match img_subimages (in_image inp) !! Z.to_nat index with
    | Some spec => Some (mkImageInput (in_image inp) index, spec)
    | None => None
    end
  else None.

Definition ImageInput_read_tile (inp : ImageInput) (x y z : Z) : option (list float) :=
  img_tile (in_image inp) (in_subimage inp) x y z.

(** ** TextureFile *)

(** The members the code of this file reads ([m_Mlocal] and [m_Mproj] are
    written by [open] and read nowhere, and are left out). *)
Record TextureFile : Type := mkTextureFile {
  m_filename : string;
  m_used : bool;
  m_broken : bool;
  m_input : option ImageInput;
  m_spec : list ImageIOFormatSpec;
  m_texformat : TexFormat;
  m_swrap : Wrap;
  m_twrap : Wrap;
  m_cubelayout : CubeLayout;
  m_y_up : bool
}.

Definition set_used (u : bool) (tf : TextureFile) : TextureFile :=
  mkTextureFile (m_filename tf) u (m_broken tf) (m_input tf) (m_spec tf)
    (m_texformat tf) (m_swrap tf) (m_twrap tf) (m_cubelayout tf) (m_y_up tf).

Definition set_broken (b : bool) (tf : TextureFile) : TextureFile :=
  mkTextureFile (m_filename tf) (m_used tf) b (m_input tf) (m_spec tf)
    (m_texformat tf) (m_swrap tf) (m_twrap tf) (m_cubelayout tf) (m_y_up tf).

Definition set_input (i : option ImageInput) (tf : TextureFile) : TextureFile :=
  mkTextureFile (m_filename tf) (m_used tf) (m_broken tf) i (m_spec tf)
    (m_texformat tf) (m_swrap tf) (m_twrap tf) (m_cubelayout tf) (m_y_up tf).

Definition opened (tf : TextureFile) : bool :=
  match m_input tf with Some _ => true | None => false end.

Definition use (tf : TextureFile) : TextureFile := set_used true tf.

(** The [do ... while (m_input->seek_subimage (nsubimages, tempspec))] loop
    of [open]: one turn per subimage of the file, [n] bounding the turns. *)
Fixpoint read_subimages (n : nat) (inp : ImageInput) (nsubimages : Z)
    (tempspec : ImageIOFormatSpec) (specs : list ImageIOFormatSpec)
  : result (ImageInput * list ImageIOFormatSpec) :=
  let nsubimages := nsubimages + 1 in
  let specs := specs ++ [tempspec] in
  match specs with
  | [] => Fault AssertFailed
  | spec0 :: _ =>
      if negb (nchannels tempspec =? nchannels spec0) then Fault AssertFailed
      else
        match ImageInput_seek_subimage inp nsubimages with
        | None => Ok (inp, specs)
        | Some (inp', tempspec') =>
            match n with
            | O => Fault OutOfFuel
            | S n' => read_subimages n' inp' nsubimages tempspec' specs
            end
        end
  end.

(** The cube layout [open] derives from the first subimage's format. *)
Definition detect_cubelayout (spec : ImageIOFormatSpec) : CubeLayout :=
  let w := Z.max (full_width spec) (tile_width spec) in
  let h := Z.max (full_height spec) (tile_height spec) in
  if (width spec =? 3 * w) && (height spec =? 2 * h) then CubeThreeByTwo
  else if (width spec =? w) && (height spec =? 6 * h) then CubeOneBySix
  else CubeLast.

(** The part of [open] that runs on the very first successful open: read
    all the MIP levels and fill out the fields from the first one. *)
Definition first_open_fields (tf : TextureFile) (inp : ImageInput)
    (specs : list ImageIOFormatSpec) (spec : ImageIOFormatSpec) : TextureFile :=
  let texformat :=
    match find_attribute spec "textureformat" with
    | Some p =>
        if bool_decide (p_type p = PT_STRING) && (p_nvalues p =? 1) then
          match lookup_name texture_format_name (cstring (p_data p)) with
          | Some f => f
          | None => TexFormatTexture
          end
        else TexFormatTexture
    | None => TexFormatTexture
    end in
  let '(swrap, twrap) :=
    match find_attribute spec "wrapmodes" with
    | Some p =>
        if bool_decide (p_type p = PT_STRING) && (p_nvalues p =? 1) then
          parse_wrapmodes (cstring (p_data p))
        else (m_swrap tf, m_twrap tf)
    | None => (m_swrap tf, m_twrap tf)
    end in
  let cube := bool_decide (texformat = TexFormatCubeFaceEnv) in
  let y_up :=
    if cube then String.eqb (img_format_name (in_image inp)) "openexr" else false in
  let cubelayout := if cube then detect_cubelayout spec else m_cubelayout tf in
  mkTextureFile (m_filename tf) (m_used tf) (m_broken tf) (Some inp) specs
    texformat swrap twrap cubelayout y_up.

(** [TextureFile::open], on the file and the system's count of open files. *)
Definition TextureFile_open (disk : Disk) (tf : TextureFile) (open_files : Z)
  : result (TextureFile * Z) :=
  if opened tf then Ok (tf, open_files)            (* Already opened *)
  else if m_broken tf then Ok (tf, open_files)     (* Already failed an open *)
  else
    match ImageInput_create disk (m_filename tf) with
    | None => Ok (set_broken true tf, open_files)
    | Some inp0 =>
        match ImageInput_open inp0 with
        | None => Ok (set_input None (set_broken true tf), open_files)
        | Some (inp, tempspec) =>
            let open_files := open_files + 1 in      (* incr_open_files *)
            let tf := use (set_input (Some inp) tf) in
            match m_spec tf with
            | _ :: _ => Ok (tf, open_files)          (* re-opened: done *)
            | [] =>
                '(inp, specs) ← read_subimages
                   (length (img_subimages (in_image inp))) inp 0 tempspec [];
                match specs with
                | [] => Fault AssertFailed
                | spec :: _ => Ok (first_open_fields tf inp specs spec, open_files)
                end
            end
        end
    end.

(** The constructor: the initial members, then [open ()]. *)
Definition TextureFile_new (filename : string) : TextureFile :=
  mkTextureFile filename true false None [] TexFormatTexture
    WrapBlack WrapBlack CubeUnknown false.

Definition TextureFile_ctor (disk : Disk) (filename : string) (open_files : Z)
  : result (TextureFile * Z) :=
  TextureFile_open disk (TextureFile_new filename) open_files.

(** [TextureFile::read_tile]: the texels read, or [None] when the reader
    reports failure. *)
Definition TextureFile_read_tile (disk : Disk) (tf : TextureFile) (open_files : Z)
    (level x y z : Z) : result (TextureFile * Z * option (list float)) :=
  '(tf, open_files) ← TextureFile_open disk tf open_files;
  match m_input tf with
  | None => Fault NullDeref                           (* m_input->current_subimage () *)
  | Some inp =>
      let inp :=
        if negb (in_subimage inp =? level) then
          match ImageInput_seek_subimage inp level with
          | Some (inp', _) => inp'
          | None => inp
          end
        else inp in
      Ok (set_input (Some inp) tf, open_files, ImageInput_read_tile inp x y z)
  end.

(** [TextureFile::release]. *)
Definition TextureFile_release (tf : TextureFile) (open_files : Z) : TextureFile * Z :=
  if m_used tf then (set_used false tf, open_files)
  else if opened tf then
    (set_used false (set_input None tf), open_files - 1)   (* decr_open_files *)
  else (tf, open_files).

(** The metadata of a file: everything [open] fills in on the first open. *)
Definition metadata (tf : TextureFile)
  : string * list ImageIOFormatSpec * TexFormat * Wrap * Wrap * CubeLayout * bool :=
  (m_filename tf, m_spec tf, m_texformat tf, m_swrap tf, m_twrap tf,
   m_cubelayout tf, m_y_up tf).

(** The readers a file holds: one when it is open, none otherwise. *)
Definition readers (tf : TextureFile) : Z := if opened tf then 1 else 0.

(** The same file, up to the used flag and the reader it holds. *)
Definition same_file (tf tf' : TextureFile) : Prop :=
  metadata tf' = metadata tf /\ m_broken tf' = m_broken tf.

(** ** TileID and Tile *)

(** The file of a [TileID] is a reference to the [TextureFile] object, here
    its name in the registry. *)
Record TileID : Type := mkTileID {
  tid_texfile : string;
  tid_level : Z;
  tid_x : Z;
  tid_y : Z;
  tid_z : Z
}.

#[global] Instance TileID_eq_dec : EqDecision TileID.
Proof. solve_decision. Defined.

Record Tile : Type := mkTile {
  tile_id : TileID;
  tile_texels : list float;     (* [m_texels], read as [float]s by [data ()] *)
  tile_valid : bool;
  tile_used : bool
}.

(** The size of a tile's buffer in bytes. *)
Definition tile_bytes (t : Tile) : nat :=
  (length (tile_texels t) * Z.to_nat (typesize PT_FLOAT))%nat.

(** ** TextureSystemImpl *)

(** [m_file_sweep] is an iterator into [m_texturefiles]: the key of the entry
    it points to, or [None] for [end ()]. *)
Record TextureSystemImpl : Type := mkSys {
  m_max_open_files : Z;
  m_max_memory_MB : Z;
  m_open_files : Z;
  m_texturefiles : amap string TextureFile;
  m_file_sweep : option string;
  tilecache : amap TileID Tile
}.

(** The constructor and [init ()]. *)
Definition TextureSystemImpl_new : TextureSystemImpl :=
  mkSys 100 50 0 ∅ None ∅.

Definition set_files (files : amap string TextureFile) (n : Z)
    (sys : TextureSystemImpl) : TextureSystemImpl :=
  mkSys (m_max_open_files sys) (m_max_memory_MB sys) n files
    (m_file_sweep sys) (tilecache sys).

Definition set_file_sweep (c : option string) (sys : TextureSystemImpl)
  : TextureSystemImpl :=
  mkSys (m_max_open_files sys) (m_max_memory_MB sys) (m_open_files sys)
    (m_texturefiles sys) c (tilecache sys).

Definition set_tilecache (cache : amap TileID Tile) (sys : TextureSystemImpl)
  : TextureSystemImpl :=
  mkSys (m_max_open_files sys) (m_max_memory_MB sys) (m_open_files sys)
    (m_texturefiles sys) (m_file_sweep sys) cache.

(** [m_texturefiles.begin ()].  The source does not fix the iteration order of
    the hash map; the oldest entry stands for its first.  The statements about
    the sweep hold for whichever entry the cursor is set to, or take
    [begin ()] of a registry of one entry. *)
Definition files_begin (files : amap string TextureFile) : option string :=
  match amap_car files with
  | (k, _) :: _ => Some k
  | [] => None
  end.

(** [TextureSystemImpl::check_max_files]; one unit of [fuel] per turn of the
    [while] loop. *)
Fixpoint check_max_files (fuel : nat) (sys : TextureSystemImpl)
  : result TextureSystemImpl :=
  if m_max_open_files sys <=? m_open_files sys then
    match fuel with
    | O => Fault OutOfFuel
    | S fuel' =>
        let sweep :=
          match m_file_sweep sys with
          | None => files_begin (m_texturefiles sys)
          | Some k => Some k
          end in
        match sweep with
        | None => Fault AssertFailed      (* ASSERT (m_file_sweep != end ()) *)
        | Some k =>
            match m_texturefiles sys !! k with
            | None => Fault NullDeref
            | Some tf =>
                let '(tf', n) := TextureFile_release tf (m_open_files sys) in
                check_max_files fuel'
                  (set_files (<[k := tf']> (m_texturefiles sys)) n
                     (set_file_sweep (Some k) sys))
            end
        end
    end
  else Ok sys.

(** [TextureSystemImpl::find_texturefile]; the returned reference is the
    entry of [filename] in the registry of the resulting system. *)
Definition find_texturefile (fuel : nat) (disk : Disk) (sys : TextureSystemImpl)
    (filename : string) : result TextureSystemImpl :=
  match m_texturefiles sys !! filename with
  | None =>
      sys ← check_max_files fuel sys;
      '(tf, n) ← TextureFile_ctor disk filename (m_open_files sys);
      Ok (set_files (<[filename := use tf]> (m_texturefiles sys)) n sys)
  | Some tf =>
      Ok (set_files (<[filename := use tf]> (m_texturefiles sys))
            (m_open_files sys) sys)
  end.

(** [Tile::Tile (id)]: a zeroed buffer of [tile_pixels * nchannels] floats,
    filled by the file's [read_tile] when that succeeds. *)
Definition Tile_ctor (disk : Disk) (sys : TextureSystemImpl) (id : TileID)
  : result (Tile * TextureSystemImpl) :=
  match m_texturefiles sys !! tid_texfile id with
  | None => Fault NullDeref
  | Some texfile =>
      match m_spec texfile with
      | [] => Fault OutOfBounds                     (* texfile.spec () *)
      | spec :: _ =>
          let n := Z.to_nat (tile_pixels spec * nchannels spec) in
          '(texfile, open_files, r) ← TextureFile_read_tile disk texfile
             (m_open_files sys) (tid_level id) (tid_x id) (tid_y id) (tid_z id);
          let texels :=
            match r with
            | Some d => take n (d ++ replicate n F32.zero)
            | None => replicate n F32.zero          (* "error reading tile" *)
            end in
          Ok (mkTile id texels true true,
              set_files (<[tid_texfile id := texfile]> (m_texturefiles sys))
                open_files sys)
      end
  end.

(** [TextureSystemImpl::find_tile]. *)
Definition find_tile (disk : Disk) (sys : TextureSystemImpl) (id : TileID)
  : result (Tile * TextureSystemImpl) :=
  match tilecache sys !! id with
  | Some tile => Ok (tile, sys)
  | None =>
      '(tile, sys) ← Tile_ctor disk sys id;
      Ok (tile, set_tilecache (<[id := tile]> (tilecache sys)) sys)
  end.

(** A sequence of [find_tile] calls, each on the system the previous left. *)
Fixpoint find_tiles (disk : Disk) (sys : TextureSystemImpl) (ids : list TileID)
  : result TextureSystemImpl :=
  match ids with
  | [] => Ok sys
  | id :: rest =>
      '(_, sys) ← find_tile disk sys id;
      find_tiles disk sys rest
  end.

(** The bytes of the cached tiles no caller in [held] refers to. *)
Definition cache_only_bytes (held : list TileID) (cache : amap TileID Tile) : nat :=
  sum_list_with (fun e => tile_bytes e.2)
    (filter (fun e => e.1 ∉ held) (amap_car cache)).

(** All the bytes of the cached tiles. *)
Definition cache_bytes (cache : amap TileID Tile) : nat :=
  sum_list_with (fun e => tile_bytes e.2) (amap_car cache).

(** The entries of the registry that hold a reader. *)
Definition open_entries (files : amap string TextureFile) : Z :=
  foldr (fun e acc => readers e.2 + acc) 0 (amap_car files).

(** The registry and the counter agree. *)
Definition counted (sys : TextureSystemImpl) : Prop :=
  m_open_files sys = open_entries (m_texturefiles sys).

(** ** gettextureinfo *)

(** What [gettextureinfo] stores through its [void *data] argument. *)
Inductive Stored : Type :=
| StoredInts (vs : list Z)              (* [((int * )data)[k] = ...] *)
| StoredFloats (vs : list float)        (* [((float * )data)[k] = ...] *)
| StoredString (s : string)             (* [*(const char ** )data = s.c_str ()] *)
| StoredBytes (bs : list Byte.byte).    (* [memcpy (data, ...)] *)

(** The loop [((float * )data)[i] = ((int * )p->data ())[i]]. *)
Fixpoint ints_as_floats (bs : list Byte.byte) (i n : nat) : result (list float) :=
  match n with
  | O => Ok []
  | S n' =>
      match int_at bs i with
      | None => Fault OutOfBounds
      | Some v =>
          rest ← ints_as_floats bs (S i) n';
          Ok (F32.of_int v :: rest)
      end
  end.

(** The general case of [gettextureinfo]: an attribute looked up by name. *)
Definition gettextureinfo_attribute (spec : ImageIOFormatSpec) (dataname : string)
    (datatype : ParamType) : result (bool * option Stored) :=
  match find_attribute spec dataname with
  | Some p =>
      if p_nvalues p =? arraylen datatype then
        (* First test for exact type match *)
        if bool_decide (p_type p = basetype datatype) then
          let n := Z.to_nat (datasize datatype) in
          if (n <=? length (p_data p))%nat
          then Ok (true, match n with
                         | O => None
                         | _ => Some (StoredBytes (take n (p_data p)))
                         end)
          else Fault OutOfBounds
        (* "If the real data is int but user asks for float, translate it" *)
        else if bool_decide (p_type p = PT_FLOAT)
                && bool_decide (basetype datatype = PT_INT) then
          vs ← ints_as_floats (p_data p) 0 (Z.to_nat (p_nvalues p));
          Ok (true, match vs with [] => None | _ => Some (StoredFloats vs) end)
        else Ok (false, None)
      else Ok (false, None)
  | None => Ok (false, None)
  end.

(** [TextureSystemImpl::gettextureinfo]: the system it leaves, the value it
    returns and what it stored into the caller's buffer, if anything. *)
Definition gettextureinfo (fuel : nat) (disk : Disk) (sys : TextureSystemImpl)
    (filename dataname : string) (datatype : ParamType)
  : result (TextureSystemImpl * bool * option Stored) :=
  sys ← find_texturefile fuel disk sys filename;
  match m_texturefiles sys !! filename with
  | None => Ok (sys, false, None)                         (* NOT FOUND *)
  | Some texfile =>
      if m_broken texfile then Ok (sys, false, None)      (* Invalid file *)
      else
        match m_spec texfile with
        | [] => Fault OutOfBounds                         (* texfile->spec () *)
        | spec :: _ =>
            if String.eqb dataname "resolution"
               && bool_decide (datatype = mkParamType PT_INT 2) then
              Ok (sys, true, Some (StoredInts [width spec; height spec]))
            else if String.eqb dataname "texturetype"
               && bool_decide (datatype = ParamType_scalar PT_STRING) then
              Ok (sys, true, Some (StoredString (texture_type_name (m_texformat texfile))))
            else if String.eqb dataname "textureformat"
               && bool_decide (datatype = ParamType_scalar PT_STRING) then
              Ok (sys, true,
                  Some (StoredString
                          (match List.find (fun e => bool_decide (e.1 = m_texformat texfile))
                                   texture_format_name with
                           | Some e => e.2
                           | None => EmptyString
                           end)))
            else if String.eqb dataname "channels"
               && bool_decide (datatype = ParamType_scalar PT_INT) then
              Ok (sys, true, Some (StoredInts [nchannels spec]))
            else if String.eqb dataname "channels"
               && bool_decide (datatype = ParamType_scalar PT_FLOAT) then
              Ok (sys, true, Some (StoredFloats [F32.of_int (nchannels spec)]))
            else
              '(ok, st) ← gettextureinfo_attribute spec dataname datatype;
              Ok (sys, ok, st)
        end
  end.

(** ** TextureOptions and the caller's arrays *)

(** A [VaryingRef<float>] the code reads through: the floats it refers to and
    its step (in elements); a uniform reference has step [0]. *)
Record VaryingRef : Type := mkVaryingRef {
  vr_data : list float;
  vr_step : Z
}.

Definition load {A} (buf : list A) (i : Z) : result A :=
  if 0 <=? i then
    match buf !! Z.to_nat i with
    | Some v => Ok v
    | None => Fault OutOfBounds
    end
  else Fault OutOfBounds.

Definition store {A} (buf : list A) (i : Z) (v : A) : result (list A) :=
  if (0 <=? i) && (i <? Z.of_nat (length buf))
  then Ok (<[Z.to_nat i := v]> buf)
  else Fault OutOfBounds.

(** [ref[i]]. *)
Definition vr_index (r : VaryingRef) (i : Z) : result float :=
  load (vr_data r) (i * vr_step r).

(** A reference used where a [float] is expected: the value it points at. *)
Definition vr_deref (r : VaryingRef) : result float := load (vr_data r) 0.

(** [alpha] is a reference into the caller's alpha array: [Some step], or
    [None] for a null reference. *)
Record TextureOptions : Type := mkTextureOptions {
  firstchannel : Z;
  opt_nchannels : Z;
  swrap : Wrap;
  twrap : Wrap;
  sblur : VaryingRef;
  tblur : VaryingRef;
  swidth : VaryingRef;
  twidth : VaryingRef;
  bias : VaryingRef;
  fill : VaryingRef;
  alpha : option Z;
  actualchannels : Z;
  stateful : bool
}.

Definition set_wraps (sw tw : Wrap) (o : TextureOptions) : TextureOptions :=
  mkTextureOptions (firstchannel o) (opt_nchannels o) sw tw (sblur o) (tblur o)
    (swidth o) (twidth o) (bias o) (fill o) (alpha o) (actualchannels o) (stateful o).

Definition set_actualchannels (n : Z) (o : TextureOptions) : TextureOptions :=
  mkTextureOptions (firstchannel o) (opt_nchannels o) (swrap o) (twrap o) (sblur o)
    (tblur o) (swidth o) (twidth o) (bias o) (fill o) (alpha o) n (stateful o).

Definition set_alpha (a : option Z) (o : TextureOptions) : TextureOptions :=
  mkTextureOptions (firstchannel o) (opt_nchannels o) (swrap o) (twrap o) (sblur o)
    (tblur o) (swidth o) (twidth o) (bias o) (fill o) a (actualchannels o) (stateful o).

(** The two arrays of the caller a sampling call writes. *)
Record Mem : Type := mkMem {
  result_buf : list float;
  alpha_buf : list float
}.

Definition store_result (m : Mem) (i : Z) (v : float) : result Mem :=
  r ← store (result_buf m) i v; Ok (mkMem r (alpha_buf m)).

Definition store_alpha (m : Mem) (i : Z) (v : float) : result Mem :=
  a ← store (alpha_buf m) i v; Ok (mkMem (result_buf m) a).

(** [for (int i = first; i <= last; ++i) body], [n] counting the turns. *)
Fixpoint loop_from {S} (n : nat) (i : Z) (body : Z -> S -> result S) (st : S)
  : result S :=
  match n with
  | O => Ok st
  | S n' => st ← body i st; loop_from n' (i + 1) body st
  end.

Definition for_range {S} (first last : Z) (body : Z -> S -> result S) (st : S)
  : result S :=
  loop_from (Z.to_nat (last - first + 1)) first body st.

(** ** texture_lookup and texture *)

(** The integer texel coordinate of a lookup: [x * res], less [0.5f], split
    by [floorfrac]; the fraction is dropped, as the lookup never reads it. *)
Definition texel_coord (x : float) (res : Z) : Z :=
  (floorfrac (F32.sub (F32.mul x (F32.of_int res)) F32.half)).2.

(** [TextureSystemImpl::texture_lookup] for the lane [index] of the file
    named [texturefile]; [resultp] is the offset of the [result] pointer it is handed.
    The four footprints [dsdx .. dtdy] it computes first are read nowhere
    and are left out. *)
Definition texture_lookup (disk : Disk) (sys : TextureSystemImpl)
    (texturefile : string) (options : TextureOptions) (index : Z)
    (_s _t : VaryingRef) (resultp : Z) (mem : Mem)
  : result (TextureSystemImpl * Mem) :=
  let resultp := resultp + index * opt_nchannels options in
  sv ← vr_index _s index;
  mem ← store_result mem resultp sv;                       (* result[0] = _s[index] *)
  tv ← vr_index _t index;
  mem ← store_result mem (resultp + 1) tv;                 (* result[1] = _t[index] *)
  match m_texturefiles sys !! texturefile with
  | None => Fault NullDeref
  | Some tf =>
      match m_spec tf with
      | [] => Fault OutOfBounds                           (* texturefile.spec (level) *)
      | spec :: _ =>
          let sint := texel_coord sv (width spec) in
          let tint := texel_coord tv (height spec) in
          (* Wrap not implemented yet.  Just ignore lookups outside the texture. *)
          if (sint <? 0) || (width spec <=? sint) || (tint <? 0) || (height spec <=? tint)
          then
            mem ← store_result mem resultp F32.one;        (* result[0] = 1 *)
            Ok (sys, mem)
          else
            let tilewidthmask := tile_width spec - 1 in
            let tileheightmask := tile_height spec - 1 in
            let tile_s := Z.land sint tilewidthmask in
            let tile_t := Z.land tint tileheightmask in
            let id := mkTileID texturefile 0 (sint - tile_s) (tint - tile_t) 0 in
            '(tile, sys) ← find_tile disk sys id;
            let offset := tile_t * tile_width spec + tile_s in
            let data := offset * nchannels spec in
            mem ← for_range 0 (actualchannels options - 1)
                    (fun c mem =>
                       v ← load (tile_texels tile) (data + firstchannel options + c);
                       store_result mem (resultp + c) v)
                    mem;
            match alpha options with
            | Some step =>
                v ← load (tile_texels tile)
                      (data + firstchannel options + actualchannels options);
                mem ← store_alpha mem (index * step) v;
                Ok (sys, mem)
            | None => Ok (sys, mem)
            end
      end
  end.

(** One turn of the loop of [texture] over a file that is absent or broken;
    the state is the caller's arrays and the offset the [result] pointer has
    reached. *)
Definition texture_fill_broken_lane (options : TextureOptions)
    (runflags : list bool) (i : Z) (st : Mem * Z) : result (Mem * Z) :=
  let '(mem, resultp) := st in
  flag ← load runflags i;
  mem ← (if flag : bool then
           mem ← for_range 0 (opt_nchannels options - 1)
                   (fun c mem =>
                      v ← vr_deref (fill options);
                      store_result mem (resultp + c) v)    (* result[c] = options.fill *)
                   mem;
           match alpha options with
           | Some step =>
               v ← vr_deref (fill options);
               store_alpha mem (i * step) v               (* options.alpha[i] = options.fill *)
           | None => Ok mem
           end
         else Ok mem);
  Ok (mem, resultp + opt_nchannels options).              (* result += options.nchannels *)

(** The loop itself: the pointer starts at the base of [result]. *)
Definition texture_fill_broken (options : TextureOptions) (runflags : list bool)
    (firstactive lastactive : Z) (mem : Mem) : result Mem :=
  '(mem, _) ← for_range firstactive lastactive
                (texture_fill_broken_lane options runflags) (mem, 0);
  Ok mem.

(** "Fill channels requested but not in the file". *)
Definition texture_fill_channels (options : TextureOptions) (runflags : list bool)
    (firstactive lastactive : Z) (mem : Mem) : result Mem :=
  for_range firstactive lastactive
    (fun i mem =>
       flag ← load runflags i;
       if flag : bool then
         fillv ← vr_index (fill options) i;
         for_range (actualchannels options) (opt_nchannels options - 1)
           (fun c mem => store_result mem (i * opt_nchannels options + c) fillv)
           mem
       else Ok mem)
    mem.

(** "Fill alpha if requested and it's not in the file". *)
Definition texture_fill_alpha (options : TextureOptions) (step : Z)
    (firstactive lastactive : Z) (mem : Mem) : result Mem :=
  for_range firstactive lastactive
    (fun i mem =>
       fillv ← vr_index (fill options) i;
       store_alpha mem (i * step) fillv)
    mem.

(** The part of [texture] that runs once the file is known to be there and
    unbroken; [spec] is [texturefile->spec ()]. *)
Definition texture_unbroken (disk : Disk) (sys : TextureSystemImpl)
    (filename : string) (texturefile : TextureFile) (spec : ImageIOFormatSpec)
    (options : TextureOptions) (runflags : list bool)
    (firstactive lastactive : Z) (s t : VaryingRef) (mem : Mem)
  : result (TextureSystemImpl * TextureOptions * Mem) :=
  (* If options indicate default wrap modes, use the ones in the file *)
  let options :=
    set_wraps
      (if bool_decide (swrap options = WrapDefault)
       then m_swrap texturefile else swrap options)
      (if bool_decide (twrap options = WrapDefault)
       then m_twrap texturefile else twrap options)
      options in
  let options :=
    set_actualchannels
      (clamp (nchannels spec - firstchannel options) 0 (opt_nchannels options))
      options in
  (* Fill channels requested but not in the file *)
  mem ← (if actualchannels options <? opt_nchannels options
         then texture_fill_channels options runflags firstactive lastactive mem
         else Ok mem);
  (* Fill alpha if requested and it's not in the file *)
  '(options, mem) ←
    match alpha options with
    | Some step =>
        if actualchannels options + 1 <? opt_nchannels options then
          mem ← texture_fill_alpha options step firstactive lastactive mem;
          Ok (set_alpha None options, mem)              (* options.alpha.init (NULL) *)
        else Ok (options, mem)
    | None => Ok (options, mem)
    end;
  (* Early out if all channels were beyond the highest in the file *)
  if actualchannels options <? 1 then Ok (sys, options, mem)
  else
    '(sys, mem) ← for_range firstactive lastactive
      (fun i '(sys, mem) =>
         flag ← load runflags i;
         if flag : bool then
           texture_lookup disk sys filename options i s t
             (i * opt_nchannels options) mem
         else Ok (sys, mem))
      (sys, mem);
    Ok (sys, options, mem).

(** [TextureSystemImpl::texture]: the system, the caller's options object and
    the caller's arrays as the call leaves them. *)
Definition texture (fuel : nat) (disk : Disk) (sys : TextureSystemImpl)
    (filename : string) (options : TextureOptions) (runflags : list bool)
    (firstactive lastactive : Z) (s t : VaryingRef) (mem : Mem)
  : result (TextureSystemImpl * TextureOptions * Mem) :=
  sys ← find_texturefile fuel disk sys filename;
  let not_found :=                                      (* TEXTURE NOT FOUND *)
    mem ← texture_fill_broken options runflags firstactive lastactive mem;
    Ok (sys, options, mem) in
  match m_texturefiles sys !! filename with
  | None => not_found
  | Some texturefile =>
      if m_broken texturefile then not_found
      else
        match m_spec texturefile with
        | [] => Fault OutOfBounds                       (* texturefile->spec () *)
        | spec :: _ =>
            texture_unbroken disk sys filename texturefile spec options runflags
              firstactive lastactive s t mem
        end
  end.

(** Whether the file lacks the alpha channel of a request.  Written from the
    specification's words: alpha is "the channel immediately after the last
    requested color", that is channel [firstchannel + nchannels] of the
    file, whose channels are [0 .. spec.nchannels - 1]. *)
Definition file_lacks_alpha (spec : ImageIOFormatSpec) (o : TextureOptions) : bool :=
  nchannels spec <=? firstchannel o + opt_nchannels o.

(** The options object as the specification has a call on an unbroken file
    leave it: a default wrap replaced by the file's declared wrap, the
    channel count actually present stored, and the alpha reference nulled
    "when alpha output is requested but the file lacks the alpha channel".
    Written from the specification's words, to be compared with what
    [texture] returns. *)
Definition options_left_by_texture (texturefile : TextureFile)
    (spec : ImageIOFormatSpec) (o : TextureOptions) : TextureOptions :=
  let actual := clamp (nchannels spec - firstchannel o) 0 (opt_nchannels o) in
  mkTextureOptions (firstchannel o) (opt_nchannels o)
    (if decide (swrap o = WrapDefault) then m_swrap texturefile else swrap o)
    (if decide (twrap o = WrapDefault) then m_twrap texturefile else twrap o)
    (sblur o) (tblur o) (swidth o) (twidth o) (bias o) (fill o)
    (match alpha o with
     | Some step => if file_lacks_alpha spec o then None else Some step
     | None => None
     end)
    actual (stateful o).

(** ** Sequences of operations on one file *)

(** A call of [open], [read_tile] or [release], with the disk as it is at the
    time of the call. *)
Inductive FileOp : Type :=
| OpOpen (disk : Disk)
| OpReadTile (disk : Disk) (level x y z : Z)
| OpRelease.

Definition run_op (op : FileOp) (st : TextureFile * Z) : result (TextureFile * Z) :=
  match op with
  | OpOpen disk => TextureFile_open disk st.1 st.2
  | OpReadTile disk level x y z =>
      '(tf, n, _) ← TextureFile_read_tile disk st.1 st.2 level x y z;
      Ok (tf, n)
  | OpRelease => Ok (TextureFile_release st.1 st.2)
  end.

Fixpoint run_ops (ops : list FileOp) (st : TextureFile * Z)
  : result (TextureFile * Z) :=
  match ops with
  | [] => Ok st
  | op :: rest => st ← run_op op st; run_ops rest st
  end.

(** The invariant of a file: a broken file holds no reader. *)
Definition closed_if_broken (tf : TextureFile) : Prop :=
  m_broken tf = true -> m_input tf = None.

(** ** Concrete files and calls *)

Module Scenario.

(** A uniform reference to one value. *)
Definition uniform (v : float) : VaryingRef := mkVaryingRef [v] 0.

(** Options of [nch] channels with the given wraps, fill and alpha step. *)
Definition options (nch : Z) (sw tw : Wrap) (fillv : float) (a : option Z)
  : TextureOptions :=
  mkTextureOptions 0 nch sw tw (uniform F32.zero) (uniform F32.zero)
    (uniform F32.one) (uniform F32.one) (uniform F32.zero) (uniform fillv)
    a 0 false.

Definition nul_terminated (s : string) : list Byte.byte :=
  list_byte_of_string s ++ [Byte.x00].

(** The 2x2 one-channel texture with texels [[0,1],[1,0]], in one 2x2 tile. *)
Definition checker_spec : ImageIOFormatSpec := mkSpec 2 2 2 2 2 2 1 1 [].

Definition checker : ImageFile :=
  mkImageFile "tiff" true [checker_spec]
    (fun level x y z =>
       if (level =? 0) && (x =? 0) && (y =? 0) && (z =? 0)
       then Some [F32.zero; F32.one; F32.one; F32.zero]
       else None).

(** The same texels in a file that declares its wrap modes. *)
Definition wrapped_spec : ImageIOFormatSpec :=
  mkSpec 2 2 2 2 2 2 1 1
    [mkParam "wrapmodes" PT_STRING 1 (nul_terminated "periodic,clamp")].

Definition wrapped : ImageFile :=
  mkImageFile "tiff" true [wrapped_spec]
    (fun level x y z =>
       if (level =? 0) && (x =? 0) && (y =? 0) && (z =? 0)
       then Some [F32.zero; F32.one; F32.one; F32.zero]
       else None).

(** A cube-face environment whose 5x5 image is neither 3x2 nor 1x6 faces of
    its 4x4 base. *)
Definition cube_spec : ImageIOFormatSpec :=
  mkSpec 5 5 4 4 4 4 1 3
    [mkParam "textureformat" PT_STRING 1 (nul_terminated "CubeFace Environment")].

Definition cube : ImageFile :=
  mkImageFile "openexr" true [cube_spec] (fun _ _ _ _ => None).

(** A texture carrying the [int] attribute "samples" = 3 and the [float]
    attribute "gamma" = 1.0 (bits 3f800000). *)
Definition tagged_spec : ImageIOFormatSpec :=
  mkSpec 2 2 2 2 2 2 1 1
    [mkParam "samples" PT_INT 1 [Byte.x03; Byte.x00; Byte.x00; Byte.x00];
     mkParam "gamma" PT_FLOAT 1 [Byte.x00; Byte.x00; Byte.x80; Byte.x3f]].

Definition tagged : ImageFile :=
  mkImageFile "tiff" true [tagged_spec] (fun _ _ _ _ => None).

Definition disk : Disk :=
  AMap [("checker.tx", checker); ("wrapped.tx", wrapped);
        ("cube.tx", cube); ("tagged.tx", tagged)]%string.

(** The system after the first reference to "checker.tx", and after the
    tile of that texture has been fetched. *)
Definition checker_tf : TextureFile :=
  mkTextureFile "checker.tx" true false (Some (mkImageInput checker 0))
    [checker_spec] TexFormatTexture WrapBlack WrapBlack CubeUnknown false.

Definition checker_sys : TextureSystemImpl :=
  mkSys 100 50 1 {[ "checker.tx"%string := checker_tf ]} None ∅.

Definition checker_tile : Tile :=
  mkTile (mkTileID "checker.tx" 0 0 0 0)
    [F32.zero; F32.one; F32.one; F32.zero] true true.

Definition checker_sys1 : TextureSystemImpl :=
  mkSys 100 50 1 {[ "checker.tx"%string := checker_tf ]} None
    {[ mkTileID "checker.tx" 0 0 0 0 := checker_tile ]}.

(** The states of two calls in a row, the first on "wrapped.tx", the second
    on "checker.tx". *)
Definition wrapped_tf : TextureFile :=
  mkTextureFile "wrapped.tx" true false (Some (mkImageInput wrapped 0))
    [wrapped_spec] TexFormatTexture WrapPeriodic WrapClamp CubeUnknown false.

Definition wrapped_sys : TextureSystemImpl :=
  mkSys 100 50 1 {[ "wrapped.tx"%string := wrapped_tf ]} None ∅.

Definition wrapped_tile : Tile :=
  mkTile (mkTileID "wrapped.tx" 0 0 0 0)
    [F32.zero; F32.one; F32.one; F32.zero] true true.

Definition wrapped_sys1 : TextureSystemImpl :=
  mkSys 100 50 1 {[ "wrapped.tx"%string := wrapped_tf ]} None
    {[ mkTileID "wrapped.tx" 0 0 0 0 := wrapped_tile ]}.

Definition both_sys : TextureSystemImpl :=
  mkSys 100 50 2
    (AMap [("wrapped.tx"%string, wrapped_tf); ("checker.tx"%string, checker_tf)])
    None {[ mkTileID "wrapped.tx" 0 0 0 0 := wrapped_tile ]}.

Definition both_sys1 : TextureSystemImpl :=
  mkSys 100 50 2
    (AMap [("wrapped.tx"%string, wrapped_tf); ("checker.tx"%string, checker_tf)])
    None (AMap [(mkTileID "wrapped.tx" 0 0 0 0, wrapped_tile);
                (mkTileID "checker.tx" 0 0 0 0, checker_tile)]).

(** The options a caller passes to the first call, and as that call leaves
    them. *)
Definition caller_options : TextureOptions :=
  options 3 WrapDefault WrapDefault F32.half (Some 1).

Definition caller_options' : TextureOptions :=
  set_actualchannels 1 (options 3 WrapPeriodic WrapClamp F32.half None).

(** A broken file: its open failed, and it holds no reader. *)
Definition broken_file : TextureFile :=
  set_broken true (TextureFile_new "does-not-exist.tx").

(** A system allowed one open file ([max_open_files (1)]), as constructed,
    after the first reference to "checker.tx", and after the first reference
    to "wrapped.tx", for which the sweep has closed "checker.tx" and stays
    on it. *)
Definition single : TextureSystemImpl := mkSys 1 50 0 ∅ None ∅.

Definition single_first : TextureSystemImpl :=
  mkSys 1 50 1 {[ "checker.tx"%string := checker_tf ]} None ∅.

Definition single_swept : TextureSystemImpl :=
  mkSys 1 50 1
    (AMap [("checker.tx"%string,
            set_used false (set_input None checker_tf));
           ("wrapped.tx"%string, wrapped_tf)])
    (Some "checker.tx"%string) ∅.

(** A texture of 4096x4096 tiles of four channels (256 MiB a tile), two
    tiles wide, every texel 1. *)
Definition big_spec : ImageIOFormatSpec := mkSpec 8192 4096 8192 4096 4096 4096 1 4 [].

Definition big : ImageFile :=
  mkImageFile "tiff" true [big_spec]
    (fun _ _ _ _ => Some (replicate (Z.to_nat (4096 * 4096 * 4)) F32.one)).

Definition big_disk : Disk := {[ "big.tx"%string := big ]}.

(** The freshly constructed system after the first reference to "big.tx". *)
Definition big_sys : TextureSystemImpl :=
  mkSys 100 50 1
    {[ "big.tx"%string :=
         mkTextureFile "big.tx" true false (Some (mkImageInput big 0)) [big_spec]
           TexFormatTexture WrapBlack WrapBlack CubeUnknown false ]}
    None ∅.

(** A file whose second subimage has three channels where the first has one. *)
Definition mixed : ImageFile :=
  mkImageFile "tiff" true [checker_spec; mkSpec 1 1 1 1 1 1 1 3 []]
    (fun _ _ _ _ => None).

(** [single_swept] after the tile of "checker.tx" has been
    fetched: the read has reopened the file the sweep had closed. *)
Definition single_reread : TextureSystemImpl :=
  mkSys 1 50 2
    (AMap [("checker.tx"%string, set_used true checker_tf);
           ("wrapped.tx"%string, wrapped_tf)])
    (Some "checker.tx"%string)
    {[ mkTileID "checker.tx" 0 0 0 0 := checker_tile ]}.

(** [single_first] after the sweep has closed its only file. *)
Definition single_closed : TextureSystemImpl :=
  mkSys 1 50 0
    {[ "checker.tx"%string := set_used false (set_input None checker_tf) ]}
    (Some "checker.tx"%string) ∅.

(** The fresh system after a reference to a file that is not on the disk. *)
Definition missing_sys : TextureSystemImpl :=
  mkSys 100 50 0 {[ "does-not-exist.tx"%string := broken_file ]} None ∅.

(** The tile at x = 2 of "checker.tx", which the file does not have: a
    buffer of zeros. *)
Definition checker_outside_tile : Tile :=
  mkTile (mkTileID "checker.tx" 0 2 0 0)
    [F32.zero; F32.zero; F32.zero; F32.zero] true true.

(** The fresh system after the first reference to "cube.tx". *)
Definition cube_tf : TextureFile :=
  mkTextureFile "cube.tx" true false (Some (mkImageInput cube 0))
    [cube_spec] TexFormatCubeFaceEnv WrapBlack WrapBlack CubeLast true.

Definition cube_sys : TextureSystemImpl :=
  mkSys 100 50 1 {[ "cube.tx"%string := cube_tf ]} None ∅.

End Scenario.

(** * Properties *)

(** Closed goals about the concrete files and calls are settled by
    evaluation. *)
Ltac evaluate :=
  vm_compute;
  repeat match goal with |- _ /\ _ => split end;
  first [reflexivity | discriminate | (intros; discriminate)].

(** ** Association maps *)

Section amap_facts.
Context {K V : Type} `{EqDecision K}.
Implicit Types (m : amap K V) (k : K) (v : V).

Lemma amap_lookup_empty k : (∅ : amap K V) !! k = None.
Proof. reflexivity. Qed.

Lemma amap_lookup_insert_eq m k v : <[k := v]> m !! k = Some v.
Proof.
  destruct m as [l]. unfold lookup, insert, amap_lookup, amap_insert. cbn [amap_car].
  induction l as [|[k' v'] l IH]; cbn [alist_insert alist_lookup].
  - rewrite decide_True; reflexivity.
  - destruct (decide (k = k')) as [<-|Hne]; cbn [alist_lookup].
    + rewrite decide_True; reflexivity.
    + rewrite decide_False by exact Hne. exact IH.
Qed.

Lemma amap_lookup_insert_ne m k k' v : k <> k' -> <[k := v]> m !! k' = m !! k'.
Proof.
  intros Hkk'. destruct m as [l].
  unfold lookup, insert, amap_lookup, amap_insert. cbn [amap_car].
  induction l as [|[k0 v0] l IH]; cbn [alist_insert alist_lookup].
  - rewrite decide_False by congruence. reflexivity.
  - destruct (decide (k = k0)) as [<-|Hne]; cbn [alist_lookup].
    + rewrite !decide_False by congruence. reflexivity.
    + destruct (decide (k' = k0)); [reflexivity | exact IH].
Qed.

(** A fresh key goes to the end of the entries. *)
Lemma amap_insert_fresh m k v :
  m !! k = None -> amap_car (<[k := v]> m) = amap_car m ++ [(k, v)].
Proof.
  destruct m as [l]. unfold lookup, insert, amap_lookup, amap_insert. cbn [amap_car].
  induction l as [|[k' v'] l IH]; cbn [alist_insert alist_lookup app]; [reflexivity|].
  destruct (decide (k = k')); [discriminate|].
  intros Hnone. rewrite (IH Hnone). reflexivity.
Qed.

End amap_facts.

(** ** TextureFile: open, read_tile, release *)

Lemma first_open_fields_broken tf inp specs spec :
  m_broken (first_open_fields tf inp specs spec) = m_broken tf.
Proof.
  unfold first_open_fields.
  destruct (match find_attribute spec "wrapmodes" with
            | Some p => _ | None => _ end) as [sw tw].
  reflexivity.
Qed.

Lemma first_open_fields_input tf inp specs spec :
  m_input (first_open_fields tf inp specs spec) = Some inp.
Proof.
  unfold first_open_fields.
  destruct (match find_attribute spec "wrapmodes" with
            | Some p => _ | None => _ end) as [sw tw].
  reflexivity.
Qed.

(** [open] on a file that already holds a reader changes nothing. *)
Lemma open_opened disk tf n :
  opened tf = true -> TextureFile_open disk tf n = Ok (tf, n).
Proof. intros H. unfold TextureFile_open. rewrite H. reflexivity. Qed.

(** [open] on a broken file changes nothing: it does not go to the disk. *)
Lemma open_broken disk tf n :
  m_broken tf = true -> TextureFile_open disk tf n = Ok (tf, n).
Proof.
  intros H. unfold TextureFile_open. rewrite H.
  destruct (opened tf); reflexivity.
Qed.

(** What [open] leaves: the file is broken afterwards exactly when it was
    broken before or the open failed, and a broken file holds no reader. *)
Lemma open_cases disk tf n tf' n' :
  TextureFile_open disk tf n = Ok (tf', n') ->
  (tf' = tf /\ n' = n)
  \/ (m_broken tf = false /\ m_input tf = None
      /\ m_broken tf' = true /\ m_input tf' = None /\ n' = n)
  \/ (m_broken tf = false /\ m_input tf = None
      /\ m_broken tf' = false /\ opened tf' = true /\ n' = n + 1).
Proof.
  unfold TextureFile_open.
  destruct (opened tf) eqn:Ho; [intros [= <- <-]; auto|].
  destruct (m_broken tf) eqn:Hb; [intros [= <- <-]; auto|].
  assert (Hi : m_input tf = None).
  { unfold opened in Ho. destruct (m_input tf); [discriminate | reflexivity]. }
  destruct (ImageInput_create disk (m_filename tf)) as [inp0|].
  2:{ intros [= <- <-]. right; left. simpl. auto. }
  destruct (ImageInput_open inp0) as [[inp tempspec]|].
  2:{ intros [= <- <-]. right; left. simpl. auto. }
  simpl. destruct (m_spec tf) as [|s0 specs0].
  - destruct (read_subimages _ inp 0 tempspec []) as [[inp' specs]|f]; simpl;
      [|discriminate].
    destruct specs as [|spec specs]; [discriminate|].
    intros [= <- <-]. right; right.
    rewrite first_open_fields_broken. unfold opened.
    rewrite first_open_fields_input. simpl. auto.
  - intros [= <- <-]. right; right. simpl. auto.
Qed.

Lemma release_broken tf n :
  m_broken (TextureFile_release tf n).1 = m_broken tf.
Proof.
  unfold TextureFile_release.
  destruct (m_used tf); [reflexivity|]. destruct (opened tf); reflexivity.
Qed.

Lemma release_input tf n :
  m_input tf = None -> m_input (TextureFile_release tf n).1 = None.
Proof.
  intros H. unfold TextureFile_release.
  destruct (m_used tf); [exact H|]. destruct (opened tf); [reflexivity | exact H].
Qed.

(** What one operation does to the invariant of a file. *)
Lemma run_op_invariant op tf n tf' n' :
  closed_if_broken tf ->
  run_op op (tf, n) = Ok (tf', n') ->
  closed_if_broken tf' /\ (m_broken tf = true -> m_broken tf' = true).
Proof.
  unfold closed_if_broken. intros Hinv. destruct op as [disk|disk level x y z|]; simpl.
  - intros H. apply open_cases in H as [[-> ->]|[(Hb & Hi & Hb' & Hi' & _)|(Hb & Hi & Hb' & _)]].
    + auto.
    + split; auto.
    + split; congruence.
  - unfold TextureFile_read_tile.
    destruct (TextureFile_open disk tf n) as [[tf1 n1]|f] eqn:Hopen; simpl; [|discriminate].
    destruct (m_input tf1) as [inp|] eqn:Hin; [|discriminate].
    simpl. intros [= <- <-]. simpl.
    apply open_cases in Hopen as [[-> ->]|[(Hb & Hi & Hb' & Hi' & _)|(Hb & Hi & Hb' & _)]].
    + split; [|auto]. intros Hb. specialize (Hinv Hb). congruence.
    + congruence.
    + split; congruence.
  - intros [= H].
    pose proof (release_broken tf n) as Hb.
    pose proof (release_input tf n) as Hi.
    rewrite H in Hb, Hi. simpl in Hb, Hi.
    split; intros Hb'; [apply Hi, Hinv|]; congruence.
Qed.

(** C9. Along every sequence of [open], [read_tile] and [release] calls on a
    file (whatever the disk holds at each call): a broken file holds no
    reader, a file that was broken stays broken, [open] on a broken file
    returns without touching the file or the count of open files, and [open]
    on an open file returns likewise. *)
Theorem broken_is_terminal_and_closed
    (ops : list FileOp) (disk : Disk) (tf tf' : TextureFile) (n n' : Z) :
  (m_broken tf = true -> m_input tf = None) ->
  run_ops ops (tf, n) = Ok (tf', n') ->
  (m_broken tf' = true -> m_input tf' = None)
  /\ (m_broken tf = true -> m_broken tf' = true)
  /\ (m_broken tf' = true -> TextureFile_open disk tf' n' = Ok (tf', n'))
  /\ (opened tf' = true -> TextureFile_open disk tf' n' = Ok (tf', n')).
Proof.
  intros Hinv Hrun.
  assert (H : closed_if_broken tf' /\ (m_broken tf = true -> m_broken tf' = true)).
  { revert tf n Hinv Hrun. induction ops as [|op ops IH]; intros tf n Hinv; simpl.
    - intros [= <- <-]. split; auto.
    - destruct (run_op op (tf, n)) as [[tf1 n1]|f] eqn:Hop; simpl; [|discriminate].
      intros Hrun. apply run_op_invariant in Hop as [Hinv1 Hb1]; [|exact Hinv].
      destruct (IH tf1 n1 Hinv1 Hrun) as [Hinv' Hb']. split; auto. }
  destruct H as [H1 H2].
  repeat split; auto using open_broken, open_opened.
Qed.

(** The file that could not be opened, released, and opened again once the
    file has appeared on disk: it is still broken and holds no reader. *)
Lemma broken_is_terminal_and_closed_witness :
  let tf := TextureFile_new "checker.tx" in
  let tf' := set_used false (set_broken true tf) in
  let ops := [OpOpen ∅; OpRelease; OpOpen Scenario.disk] in
  (m_broken tf = true -> m_input tf = None)
  /\ run_ops ops (tf, 0) = Ok (tf', 0)
  /\ (m_broken tf' = true -> m_input tf' = None)
  /\ (m_broken tf = true -> m_broken tf' = true)
  /\ (m_broken tf' = true -> TextureFile_open Scenario.disk tf' 0 = Ok (tf', 0))
  /\ (opened tf' = true -> TextureFile_open Scenario.disk tf' 0 = Ok (tf', 0)).
Proof.
  intros tf tf' ops.
  assert (H0 : m_broken tf = true -> m_input tf = None) by (intros _; reflexivity).
  assert (H1 : run_ops ops (tf, 0) = Ok (tf', 0)) by reflexivity.
  split; [exact H0|]. split; [exact H1|].
  exact (broken_is_terminal_and_closed ops Scenario.disk tf tf' 0 0 H0 H1).
Defined.

(** C7. [read_tile] on a broken file: [open] returns at once, no reader is
    held, and the [m_input->current_subimage ()] that follows dereferences
    the empty pointer; no failure is returned to the caller. *)
Theorem read_tile_on_broken_file_dereferences_null
    (disk : Disk) (tf : TextureFile) (n level x y z : Z) :
  m_broken tf = true ->
  m_input tf = None ->
  TextureFile_read_tile disk tf n level x y z = Fault NullDeref.
Proof.
  intros Hb Hi. unfold TextureFile_read_tile.
  rewrite (open_broken disk tf n Hb). simpl. rewrite Hi. reflexivity.
Qed.

Lemma read_tile_on_broken_file_witness :
  m_broken Scenario.broken_file = true
  /\ m_input Scenario.broken_file = None
  /\ TextureFile_read_tile Scenario.disk Scenario.broken_file 0 0 0 0 0
     = Fault NullDeref.
Proof.
  split; [reflexivity|]. split; [reflexivity|].
  exact (read_tile_on_broken_file_dereferences_null Scenario.disk
           Scenario.broken_file 0 0 0 0 0 eq_refl eq_refl).
Defined.

(** Reopening a file that was opened before and closed since. *)
Lemma open_closed_file
    (disk : Disk) (tf : TextureFile) (n : Z)
    (img : ImageFile) (spec : ImageIOFormatSpec) (specs : list ImageIOFormatSpec) :
  m_input tf = None ->
  m_broken tf = false ->
  m_spec tf = spec :: specs ->
  disk !! m_filename tf = Some img ->
  img_opens img = true ->
  img_subimages img <> [] ->
  TextureFile_open disk tf n
  = Ok (use (set_input (Some (mkImageInput img 0)) tf), n + 1).
Proof.
  intros Hi Hb Hs Hd Ho Hl.
  unfold TextureFile_open, opened, ImageInput_create, ImageInput_open.
  rewrite Hi, Hb, Hd. simpl. rewrite Ho.
  destruct (img_subimages img) as [|s0 subs]; [congruence|].
  simpl. rewrite Hs. reflexivity.
Qed.

(** X8. A file closed by the sweep is reopened by [read_tile], which then reads
    the tile from the reader, when the file on disk still opens. *)
Lemma read_tile_reopens_closed_file
    (disk : Disk) (tf : TextureFile) (n level x y z : Z)
    (img : ImageFile) (spec : ImageIOFormatSpec) (specs : list ImageIOFormatSpec) :
  m_input tf = None ->
  m_broken tf = false ->
  m_spec tf = spec :: specs ->
  disk !! m_filename tf = Some img ->
  img_opens img = true ->
  (0 <= level < Z.of_nat (length (img_subimages img))) ->
  TextureFile_read_tile disk tf n level x y z
  = Ok (use (set_input (Some (mkImageInput img level)) tf), n + 1,
        img_tile img level x y z).
Proof.
  intros Hi Hb Hs Hd Ho Hl.
  unfold TextureFile_read_tile.
  rewrite (open_closed_file disk tf n img spec specs) by
    (auto; intros E; rewrite E in Hl; simpl in Hl; lia).
  cbn -[Z.eqb Z.leb lookup].
  unfold ImageInput_seek_subimage, ImageInput_read_tile.
  cbn -[Z.eqb Z.leb lookup].
  destruct (Z.eqb_spec 0 level) as [<-|Hne]; cbn -[Z.eqb Z.leb lookup].
  - reflexivity.
  - destruct (Z.leb_spec 0 level); [|lia].
    destruct (img_subimages img !! Z.to_nat level) as [sp|] eqn:Hlk.
    + reflexivity.
    + apply lookup_ge_None in Hlk. lia.
Qed.

Lemma read_tile_reopens_closed_file_witness :
  TextureFile_read_tile Scenario.disk
    (set_used false (set_input None Scenario.checker_tf)) 0 0 0 0 0
  = Ok (Scenario.checker_tf, 1, Some [F32.zero; F32.one; F32.one; F32.zero]).
Proof.
  apply (read_tile_reopens_closed_file Scenario.disk
           (set_used false (set_input None Scenario.checker_tf)) 0 0 0 0 0
           Scenario.checker Scenario.checker_spec []);
    try reflexivity. vm_compute. split; [discriminate|reflexivity].
Defined.

(** X9. A file closed by the sweep whose file on disk has gone: the reopen fails,
    the file becomes broken, and [read_tile] dereferences the empty reader. *)
Lemma read_tile_closed_file_vanished
    (disk : Disk) (tf : TextureFile) (n level x y z : Z) :
  m_input tf = None ->
  m_broken tf = false ->
  disk !! m_filename tf = None ->
  TextureFile_read_tile disk tf n level x y z = Fault NullDeref.
Proof.
  intros Hi Hb Hd.
  unfold TextureFile_read_tile, TextureFile_open, opened, ImageInput_create.
  rewrite Hi, Hb, Hd. simpl. rewrite Hi. reflexivity.
Qed.

Lemma read_tile_closed_file_vanished_witness :
  TextureFile_read_tile ∅
    (set_used false (set_input None Scenario.checker_tf)) 0 0 0 0 0
  = Fault NullDeref.
Proof.
  apply (read_tile_closed_file_vanished ∅
           (set_used false (set_input None Scenario.checker_tf)) 0 0 0 0 0);
    reflexivity.
Defined.

(** ** The first open of a cube-face environment *)

(** The subimage loop of [open] collects the format of every subimage when
    they all have the channel count of the first. *)
Lemma read_subimages_all (k : nat) :
  forall (n : nat) (inp : ImageInput) (i : nat) (tempspec spec0 : ImageIOFormatSpec)
         (rest : list ImageIOFormatSpec),
  img_subimages (in_image inp) = spec0 :: rest ->
  Forall (fun s => nchannels s = nchannels spec0) rest ->
  (spec0 :: rest) !! i = Some tempspec ->
  length rest = (i + k)%nat ->
  (k <= n)%nat ->
  exists inp',
    read_subimages n inp (Z.of_nat i) tempspec (take i (spec0 :: rest))
    = Ok (inp', spec0 :: rest)
    /\ in_image inp' = in_image inp.
Proof.
  induction k as [|k IH]; intros n inp i tempspec spec0 rest Himg Hall Hi Hlen Hn.
  - destruct n; cbn -[Z.add take lookup];
      rewrite <- (take_S_r _ _ _ Hi); cbn [take].
    all: assert (Hch : nchannels tempspec = nchannels spec0)
        by (destruct i; simpl in Hi; [congruence|];
            eapply Forall_lookup_1 in Hall; eauto).
    all: rewrite Hch, Z.eqb_refl; cbn [negb].
    all: unfold ImageInput_seek_subimage; rewrite Himg.
    all: destruct (Z.leb_spec 0 (Z.of_nat i + 1)); [|lia].
    all: replace (Z.to_nat (Z.of_nat i + 1)) with (S i) by lia.
    all: rewrite (lookup_ge_None_2 (spec0 :: rest) (S i)) by (simpl; lia).
    all: rewrite (take_ge rest i) by lia; eauto.
  - destruct n as [|n]; [lia|].
    cbn -[Z.add take lookup].
    rewrite <- (take_S_r _ _ _ Hi); cbn [take].
    assert (Hch : nchannels tempspec = nchannels spec0)
        by (destruct i; simpl in Hi; [congruence|];
            eapply Forall_lookup_1 in Hall; eauto).
    rewrite Hch, Z.eqb_refl; cbn [negb].
    unfold ImageInput_seek_subimage; rewrite Himg.
    destruct (Z.leb_spec 0 (Z.of_nat i + 1)); [|lia].
    replace (Z.to_nat (Z.of_nat i + 1)) with (S i) by lia.
    destruct ((spec0 :: rest) !! S i) as [spec'|] eqn:Hnext.
    2:{ apply lookup_ge_None in Hnext. simpl in Hnext. lia. }
    replace (Z.of_nat i + 1) with (Z.of_nat (S i)) by lia.
    destruct (IH n (mkImageInput (in_image inp) (Z.of_nat (S i))) (S i) spec' spec0 rest)
      as (inp' & Hr & Hin); auto; try lia.
    exists inp'. split; [|exact Hin]. exact Hr.
Qed.






(** ** check_max_files *)

(** One turn of the loop: the entry under the cursor is released, and the
    cursor stays where it is. *)
Lemma check_max_files_turn fuel sys k tf :
  m_max_open_files sys <= m_open_files sys ->
  m_file_sweep sys = Some k ->
  m_texturefiles sys !! k = Some tf ->
  check_max_files (S fuel) sys
  = check_max_files fuel
      (set_files (<[k := (TextureFile_release tf (m_open_files sys)).1]>
                    (m_texturefiles sys))
         (TextureFile_release tf (m_open_files sys)).2
         (set_file_sweep (Some k) sys)).
Proof.
  intros Hle Hk Htf. cbn [check_max_files].
  destruct (Z.leb_spec (m_max_open_files sys) (m_open_files sys)); [|lia].
  rewrite Hk, Htf. destruct (TextureFile_release tf (m_open_files sys)).
  reflexivity.
Qed.

(** Once the entry under the cursor is neither used nor open, releasing it
    changes nothing and the loop turns for ever. *)
Lemma check_max_files_stuck fuel : forall sys k tf,
  m_max_open_files sys <= m_open_files sys ->
  m_file_sweep sys = Some k ->
  m_texturefiles sys !! k = Some tf ->
  m_used tf = false ->
  opened tf = false ->
  check_max_files fuel sys = Fault OutOfFuel.
Proof.
  induction fuel as [|fuel IH]; intros sys k tf Hle Hk Htf Hu Ho.
  - cbn [check_max_files].
    destruct (Z.leb_spec (m_max_open_files sys) (m_open_files sys)); [reflexivity|lia].
  - rewrite (check_max_files_turn fuel sys k tf) by assumption.
    unfold TextureFile_release. rewrite Hu, Ho. cbn [fst snd].
    apply (IH _ k tf); cbn; auto. apply amap_lookup_insert_eq.
Qed.

(** X10. The loop cannot finish when closing the entry under the cursor does not
    bring the count of open files below the maximum. *)
Lemma check_max_files_spins fuel sys k tf :
  m_max_open_files sys <= m_open_files sys - 1 ->
  m_file_sweep sys = Some k ->
  m_texturefiles sys !! k = Some tf ->
  check_max_files fuel sys = Fault OutOfFuel.
Proof.
  intros Hle Hk Htf.
  assert (Hclosed : forall fuel sys tf,
             m_max_open_files sys <= m_open_files sys - 1 ->
             m_file_sweep sys = Some k ->
             m_texturefiles sys !! k = Some tf ->
             m_used tf = false ->
             check_max_files fuel sys = Fault OutOfFuel).
  { clear. intros fuel sys tf Hle Hk Htf Hu.
    destruct (opened tf) eqn:Ho.
    2:{ apply (check_max_files_stuck fuel sys k tf); auto. lia. }
    destruct fuel as [|fuel].
    { cbn [check_max_files].
      destruct (Z.leb_spec (m_max_open_files sys) (m_open_files sys)); [reflexivity|lia]. }
    rewrite (check_max_files_turn fuel sys k tf) by (auto; lia).
    unfold TextureFile_release. rewrite Hu, Ho. cbn [fst snd].
    apply (check_max_files_stuck fuel _ k (set_used false (set_input None tf)));
      cbn; auto. apply amap_lookup_insert_eq. }
  destruct (m_used tf) eqn:Hu; [|eauto].
  destruct fuel as [|fuel].
  { cbn [check_max_files].
    destruct (Z.leb_spec (m_max_open_files sys) (m_open_files sys)); [reflexivity|lia]. }
  rewrite (check_max_files_turn fuel sys k tf) by (auto; lia).
  unfold TextureFile_release. rewrite Hu. cbn [fst snd].
  apply (Hclosed fuel _ (set_used false tf)); cbn; auto.
  apply amap_lookup_insert_eq.
Qed.

Lemma check_max_files_spins_witness :
  find_tile Scenario.disk Scenario.single_swept (mkTileID "checker.tx" 0 0 0 0)
  = Ok (Scenario.checker_tile, Scenario.single_reread)
  /\ check_max_files 1000 Scenario.single_reread = Fault OutOfFuel.
Proof.
  split; [vm_compute; reflexivity|].
  apply (check_max_files_spins 1000 Scenario.single_reread "checker.tx"
           (set_used true Scenario.checker_tf)); [cbn; lia | reflexivity..].
Defined.

(** C2. With one open file allowed, the first reference to a file opens it,
    the second closes the first file to open the second, and from then on
    [check_max_files] does not return however many turns it is given,
    although a file is open and [max_open_files] is 1: it releases the entry
    under the cursor, which it never advances, and that entry is the file it
    has already closed.  The third reference to a new file never returns. *)
Theorem check_max_files_never_returns (fuel : nat) :
  find_texturefile 0 Scenario.disk Scenario.single "checker.tx" = Ok Scenario.single_first
  /\ find_texturefile 2 Scenario.disk Scenario.single_first "wrapped.tx" = Ok Scenario.single_swept
  /\ m_open_files Scenario.single_swept = 1
  /\ m_max_open_files Scenario.single_swept = 1
  /\ check_max_files fuel Scenario.single_swept = Fault OutOfFuel
  /\ find_texturefile fuel Scenario.disk Scenario.single_swept "cube.tx" = Fault OutOfFuel.
Proof.
  assert (Hspin : check_max_files fuel Scenario.single_swept = Fault OutOfFuel).
  { apply (check_max_files_stuck fuel Scenario.single_swept "checker.tx"
             (set_used false (set_input None Scenario.checker_tf)));
      [cbn; lia | reflexivity..]. }
  split; [evaluate|]. split; [evaluate|]. split; [reflexivity|].
  split; [reflexivity|]. split; [exact Hspin|].
  unfold find_texturefile.
  replace (m_texturefiles Scenario.single_swept !! "cube.tx"%string) with (@None TextureFile)
    by (vm_compute; reflexivity).
  rewrite Hspin. reflexivity.
Qed.

(** Below the maximum the loop is not entered. *)
Lemma check_max_files_below fuel sys :
  m_open_files sys < m_max_open_files sys ->
  check_max_files fuel sys = Ok sys.
Proof.
  intros Hlt. destruct fuel; cbn [check_max_files];
    destruct (Z.leb_spec (m_max_open_files sys) (m_open_files sys)); (lia || reflexivity).
Qed.

(** When the loop returns, the count of open files is below the maximum,
    which the loop does not change. *)
Lemma check_max_files_exit fuel : forall sys sys',
  check_max_files fuel sys = Ok sys' ->
  m_open_files sys' < m_max_open_files sys'
  /\ m_max_open_files sys' = m_max_open_files sys.
Proof.
  induction fuel as [|fuel IH]; intros sys sys'; cbn [check_max_files];
    destruct (Z.leb_spec (m_max_open_files sys) (m_open_files sys)) as [Hle|Hlt];
    try discriminate; try (intros [= <-]; split; [lia|reflexivity]).
  destruct (match m_file_sweep sys with
            | Some k => Some k
            | None => files_begin (m_texturefiles sys)
            end) as [k|]; [|discriminate].
  destruct (m_texturefiles sys !! k) as [tf|]; [|discriminate].
  destruct (TextureFile_release tf (m_open_files sys)) as [tf' n].
  intros Hrec. apply IH in Hrec as [H1 H2]. split; [exact H1|exact H2].
Qed.

(** X11. The file budget at a miss: when [find_texturefile] creates an entry and
    returns, at most [max_open_files] files are counted open. *)
Lemma find_texturefile_miss_within_budget fuel disk sys filename sys' :
  m_texturefiles sys !! filename = None ->
  find_texturefile fuel disk sys filename = Ok sys' ->
  m_open_files sys' <= m_max_open_files sys'.
Proof.
  intros Hnone. unfold find_texturefile. rewrite Hnone.
  destruct (check_max_files fuel sys) as [sys1|f] eqn:Hchk; [|discriminate].
  cbn [mbind result_bind].
  destruct (TextureFile_ctor disk filename (m_open_files sys1)) as [[tf n]|f] eqn:Hctor;
    [|discriminate].
  cbn [mbind result_bind]. intros [= <-]. cbn [m_open_files m_max_open_files set_files].
  apply check_max_files_exit in Hchk as [Hlt _].
  unfold TextureFile_ctor in Hctor.
  apply open_cases in Hctor as [[_ ->]|[(_ & _ & _ & _ & ->)|(_ & _ & _ & _ & ->)]]; lia.
Qed.

Lemma find_texturefile_miss_within_budget_witness :
  find_texturefile 2 Scenario.disk Scenario.single_first "wrapped.tx"
  = Ok Scenario.single_swept
  /\ m_open_files Scenario.single_swept <= m_max_open_files Scenario.single_swept.
Proof.
  assert (H : find_texturefile 2 Scenario.disk Scenario.single_first "wrapped.tx"
              = Ok Scenario.single_swept) by (vm_compute; reflexivity).
  split; [exact H|].
  exact (find_texturefile_miss_within_budget 2 Scenario.disk Scenario.single_first
           "wrapped.tx" Scenario.single_swept eq_refl H).
Defined.

(** ** find_tile and the tile cache *)

(** Inserting a tile under a fresh id adds its bytes to the cache. *)
Lemma cache_bytes_insert (cache : amap TileID Tile) id tile :
  cache !! id = None ->
  cache_bytes (<[id := tile]> cache) = (tile_bytes tile + cache_bytes cache)%nat.
Proof.
  intros Hnone. unfold cache_bytes.
  rewrite (amap_insert_fresh cache id tile Hnone), sum_list_with_app.
  cbn [sum_list_with snd]. lia.
Qed.

(** The same for the bytes no caller in [held] refers to. *)
Lemma cache_only_bytes_insert (held : list TileID) (cache : amap TileID Tile) id tile :
  cache !! id = None ->
  cache_only_bytes held (<[id := tile]> cache)
  = ((if decide (id ∈ held) then 0 else tile_bytes tile)
     + cache_only_bytes held cache)%nat.
Proof.
  intros Hnone. unfold cache_only_bytes.
  rewrite (amap_insert_fresh cache id tile Hnone), filter_app, sum_list_with_app.
  rewrite filter_cons, filter_nil. cbn [fst].
  destruct (decide (id ∉ held)) as [Hn|Hn], (decide (id ∈ held)); try tauto;
    cbn [sum_list_with snd]; lia.
Qed.

(** The tile [Tile::Tile] builds has a buffer of [tile_pixels * nchannels]
    floats whether or not the read succeeds, and the cache is not touched. *)
Lemma Tile_ctor_inv disk sys id tile sys' :
  Tile_ctor disk sys id = Ok (tile, sys') ->
  tile_id tile = id
  /\ tilecache sys' = tilecache sys
  /\ m_max_memory_MB sys' = m_max_memory_MB sys
  /\ exists texfile spec specs,
       m_texturefiles sys !! tid_texfile id = Some texfile
       /\ m_spec texfile = spec :: specs
       /\ tile_bytes tile = (Z.to_nat (tile_pixels spec * nchannels spec) * 4)%nat.
Proof.
  unfold Tile_ctor.
  destruct (m_texturefiles sys !! tid_texfile id) as [texfile|] eqn:Hf; [|discriminate].
  destruct (m_spec texfile) as [|spec specs] eqn:Hs; [discriminate|].
  destruct (TextureFile_read_tile _ _ _ _ _ _ _) as [[[tf' n'] r]|f]; [|discriminate].
  cbn [mbind result_bind]. intros [= <- <-]. cbn.
  repeat split; auto. exists texfile, spec, specs. repeat split; auto.
  unfold tile_bytes. cbn [tile_texels]. f_equal.
  destruct r as [d|].
  - rewrite length_take, length_app, length_replicate. lia.
  - apply length_replicate.
Qed.

(** A hit returns the cached tile and changes nothing. *)
Lemma find_tile_hit disk sys id t :
  tilecache sys !! id = Some t -> find_tile disk sys id = Ok (t, sys).
Proof. intros Hc. unfold find_tile. rewrite Hc. reflexivity. Qed.

(** A miss that returns has inserted the tile it returns. *)
Lemma find_tile_miss disk sys sys' id tile :
  tilecache sys !! id = None ->
  find_tile disk sys id = Ok (tile, sys') ->
  tilecache sys' = <[id := tile]> (tilecache sys)
  /\ m_max_memory_MB sys' = m_max_memory_MB sys.
Proof.
  intros Hc. unfold find_tile. rewrite Hc.
  destruct (Tile_ctor disk sys id) as [[t1 sys1]|f] eqn:Hctor; [|discriminate].
  cbn [mbind result_bind]. intros [= <- <-].
  apply Tile_ctor_inv in Hctor as (_ & Hcache & Hmax & _).
  cbn [tilecache set_tilecache m_max_memory_MB]. rewrite Hcache. auto.
Qed.

(** C1 (amended). [find_tile] runs no memory check and never evicts: when a
    call returns, the requested tile is cached, every tile that was cached
    before the call still is, [max_memory_MB] is what it was, and on a miss
    the new tile has been constructed and inserted, the cached bytes having
    grown by the size of its buffer whatever the budget is. *)
Theorem find_tile_never_evicts
    (disk : Disk) (sys sys' : TextureSystemImpl) (id : TileID) (tile : Tile) :
  find_tile disk sys id = Ok (tile, sys') ->
  tilecache sys' !! id = Some tile
  /\ (forall id' t, tilecache sys !! id' = Some t -> tilecache sys' !! id' = Some t)
  /\ m_max_memory_MB sys' = m_max_memory_MB sys
  /\ (tilecache sys !! id = None ->
      tilecache sys' = <[id := tile]> (tilecache sys)
      /\ cache_bytes (tilecache sys')
         = (tile_bytes tile + cache_bytes (tilecache sys))%nat
      /\ forall held,
           cache_only_bytes held (tilecache sys')
           = ((if decide (id ∈ held) then 0 else tile_bytes tile)
              + cache_only_bytes held (tilecache sys))%nat).
Proof.
  intros Hft. destruct (tilecache sys !! id) as [t0|] eqn:Hc.
  - rewrite (find_tile_hit disk sys id t0 Hc) in Hft.
    injection Hft as <- <-.
    split; [exact Hc|]. split; [auto|]. split; [reflexivity|]. discriminate.
  - destruct (find_tile_miss disk sys sys' id tile Hc Hft) as [Hcache Hmax].
    rewrite Hcache.
    split; [apply amap_lookup_insert_eq|].
    split.
    { intros id' t Ht. rewrite amap_lookup_insert_ne; [exact Ht|congruence]. }
    split; [exact Hmax|]. intros _.
    split; [reflexivity|].
    split; [apply cache_bytes_insert; exact Hc|].
    intros held. apply cache_only_bytes_insert; exact Hc.
Qed.

(** A miss on a file that is open: the tile is built and inserted, and the
    file stays open. *)
Lemma find_tile_miss_open disk sys id tf spec specs inp :
  tilecache sys !! id = None ->
  m_texturefiles sys !! tid_texfile id = Some tf ->
  m_input tf = Some inp ->
  m_spec tf = spec :: specs ->
  exists tile tf' inp',
    find_tile disk sys id
    = Ok (tile,
          set_tilecache (<[id := tile]> (tilecache sys))
            (set_files (<[tid_texfile id := tf']> (m_texturefiles sys))
               (m_open_files sys) sys))
    /\ tile_bytes tile = (Z.to_nat (tile_pixels spec * nchannels spec) * 4)%nat
    /\ m_input tf' = Some inp'
    /\ m_spec tf' = spec :: specs.
Proof.
  intros Hc Hf Hi Hs. unfold find_tile, Tile_ctor, TextureFile_read_tile.
  rewrite Hc, Hf, Hs.
  rewrite (open_opened disk tf (m_open_files sys)) by (unfold opened; rewrite Hi; reflexivity).
  cbn [mbind result_bind]. rewrite Hi. cbn [mbind result_bind].
  eexists _, _, _. split; [reflexivity|].
  split; [|split; [reflexivity|exact Hs]].
  unfold tile_bytes. cbn [tile_texels]. f_equal.
  destruct (ImageInput_read_tile _ _ _ _) as [d|].
  - rewrite length_take, length_app, length_replicate. lia.
  - apply length_replicate.
Qed.

(** C1 as stated fails: with the default budget of 50 MB, two calls for the
    two 256 MiB tiles of a texture leave the first tile cached and referred
    to by the cache alone (the caller holds the second), far above
    [max_memory_MB * 2^20] bytes. *)
Lemma tile_budget_exceeded :
  find_texturefile 0 Scenario.big_disk TextureSystemImpl_new "big.tx" = Ok Scenario.big_sys
  /\ exists t1 sys2 t2 sys3,
       find_tile Scenario.big_disk Scenario.big_sys (mkTileID "big.tx" 0 0 0 0) = Ok (t1, sys2)
       /\ find_tile Scenario.big_disk sys2 (mkTileID "big.tx" 0 4096 0 0) = Ok (t2, sys3)
       /\ m_max_memory_MB sys3 = 50
       /\ 50 * 2 ^ 20
          < Z.of_nat (cache_only_bytes [mkTileID "big.tx" 0 4096 0 0] (tilecache sys3)).
Proof.
  split; [reflexivity|].
  set (id1 := mkTileID "big.tx" 0 0 0 0).
  set (id2 := mkTileID "big.tx" 0 4096 0 0).
  destruct (find_tile_miss_open Scenario.big_disk Scenario.big_sys id1
              (mkTextureFile "big.tx" true false (Some (mkImageInput Scenario.big 0)) [Scenario.big_spec]
                 TexFormatTexture WrapBlack WrapBlack CubeUnknown false)
              Scenario.big_spec [] (mkImageInput Scenario.big 0))
    as (t1 & tf1 & inp1 & H1 & Hb1 & Hi1 & Hs1); try reflexivity.
  match type of H1 with _ = Ok (_, ?s) => remember s as sys2 eqn:Hsys2 end.
  assert (Hc2 : tilecache sys2 !! id2 = None).
  { subst sys2. cbn [tilecache set_tilecache set_files Scenario.big_sys].
    rewrite amap_lookup_insert_ne by discriminate. apply amap_lookup_empty. }
  destruct (find_tile_miss_open Scenario.big_disk sys2 id2 tf1 Scenario.big_spec [] inp1)
    as (t2 & tf2 & inp2 & H2 & Hb2 & Hi2 & Hs2); auto.
  { subst sys2. cbn [m_texturefiles set_tilecache set_files tid_texfile id1 id2].
    apply amap_lookup_insert_eq. }
  exists t1, sys2, t2. eexists. split; [exact H1|]. split; [exact H2|].
  split; [subst sys2; reflexivity|].
  cbn [tilecache set_tilecache set_files].
  rewrite cache_only_bytes_insert by exact Hc2.
  subst sys2. cbn [tilecache set_tilecache set_files Scenario.big_sys].
  rewrite cache_only_bytes_insert by apply amap_lookup_empty.
  rewrite decide_True by (apply list_elem_of_singleton; reflexivity).
  rewrite decide_False by (rewrite list_elem_of_singleton; discriminate).
  rewrite Hb1. unfold cache_only_bytes. cbn [amap_car empty amap_empty].
  cbn [filter list_filter sum_list_with].
  rewrite !Nat.add_0_r, Nat.add_0_l, Nat2Z.inj_mul, Z2Nat.id by (vm_compute; discriminate).
  vm_compute. reflexivity.
Qed.

(** The first call for a tile of the big texture: it is cached, and the
    budget is what it was. *)
Lemma find_tile_never_evicts_witness :
  exists t1 sys2,
    find_tile Scenario.big_disk Scenario.big_sys (mkTileID "big.tx" 0 0 0 0)
    = Ok (t1, sys2)
    /\ tilecache sys2 !! mkTileID "big.tx" 0 0 0 0 = Some t1
    /\ m_max_memory_MB sys2 = 50.
Proof.
  destruct (find_tile_miss_open Scenario.big_disk Scenario.big_sys
              (mkTileID "big.tx" 0 0 0 0)
              (mkTextureFile "big.tx" true false
                 (Some (mkImageInput Scenario.big 0)) [Scenario.big_spec]
                 TexFormatTexture WrapBlack WrapBlack CubeUnknown false)
              Scenario.big_spec [] (mkImageInput Scenario.big 0))
    as (t1 & tf1 & inp1 & H1 & _); try reflexivity.
  eexists t1, _. split; [exact H1|].
  destruct (find_tile_never_evicts _ _ _ _ _ H1) as (Hc & _ & Hm & _).
  split; [exact Hc|exact Hm].
Defined.

(** X16. Along a sequence of calls nothing leaves the cache: every tile cached
    before is cached after, every requested tile is cached, and the cached
    bytes never decrease. *)
Lemma find_tiles_never_evict disk ids : forall sys sys',
  find_tiles disk sys ids = Ok sys' ->
  (forall id t, tilecache sys !! id = Some t -> tilecache sys' !! id = Some t)
  /\ (forall id, id ∈ ids -> is_Some (tilecache sys' !! id))
  /\ (cache_bytes (tilecache sys) <= cache_bytes (tilecache sys'))%nat
  /\ m_max_memory_MB sys' = m_max_memory_MB sys.
Proof.
  induction ids as [|id ids IH]; intros sys sys'; cbn [find_tiles].
  - intros [= <-]. repeat split; auto. intros id Hin. inversion Hin.
  - destruct (find_tile disk sys id) as [[tile sys1]|f] eqn:Hft; [|discriminate].
    cbn [mbind result_bind]. intros Hrest.
    destruct (IH _ _ Hrest) as (Hkeep' & Hall & Hbytes & Hmax').
    destruct (tilecache sys !! id) as [t0|] eqn:Hc.
    + rewrite (find_tile_hit disk sys id t0 Hc) in Hft. injection Hft as <- <-.
      repeat split; auto.
      intros id' Hin. apply elem_of_cons in Hin as [->|Hin]; eauto.
    + destruct (find_tile_miss disk sys sys1 id tile Hc Hft) as [Hcache Hmax].
      assert (Hid : tilecache sys1 !! id = Some tile)
        by (rewrite Hcache; apply amap_lookup_insert_eq).
      split.
      { intros id' t Ht. apply Hkeep'. rewrite Hcache.
        rewrite amap_lookup_insert_ne; [exact Ht|congruence]. }
      split.
      { intros id' Hin. apply elem_of_cons in Hin as [->|Hin]; eauto. }
      split; [|congruence].
      rewrite Hcache, (cache_bytes_insert _ _ _ Hc) in Hbytes. lia.
Qed.

Lemma find_tiles_never_evict_witness :
  find_tiles Scenario.disk Scenario.both_sys
    [mkTileID "checker.tx" 0 0 0 0; mkTileID "wrapped.tx" 0 0 0 0]
  = Ok Scenario.both_sys1
  /\ (cache_bytes (tilecache Scenario.both_sys)
      <= cache_bytes (tilecache Scenario.both_sys1))%nat.
Proof.
  assert (H : find_tiles Scenario.disk Scenario.both_sys
                [mkTileID "checker.tx" 0 0 0 0; mkTileID "wrapped.tx" 0 0 0 0]
              = Ok Scenario.both_sys1) by (vm_compute; reflexivity).
  split; [exact H|].
  exact (proj1 (proj2 (proj2 (find_tiles_never_evict _ _ _ _ H)))).
Defined.

(** ** gettextureinfo *)


(** ** gettextureinfo *)


(** Stored [int]s asked for as [float]s: neither test of the general case
    holds, nothing is stored and [false] is returned. *)
Lemma gettextureinfo_attribute_int_as_float spec dataname datatype p :
  find_attribute spec dataname = Some p ->
  p_type p = PT_INT ->
  basetype datatype = PT_FLOAT ->
  gettextureinfo_attribute spec dataname datatype = Ok (false, None).
Proof.
  intros Hp Ht Hb. unfold gettextureinfo_attribute. rewrite Hp, Ht, Hb.
  destruct (p_nvalues p =? arraylen datatype); reflexivity.
Qed.

(** Stored [float]s asked for as [int]s: the bytes of the floats are read as
    [int]s, converted to [float] and stored, and [true] is returned. *)
Lemma gettextureinfo_attribute_float_as_int spec dataname datatype p vs :
  find_attribute spec dataname = Some p ->
  p_nvalues p = arraylen datatype ->
  p_type p = PT_FLOAT ->
  basetype datatype = PT_INT ->
  ints_as_floats (p_data p) 0 (Z.to_nat (p_nvalues p)) = Ok vs ->
  gettextureinfo_attribute spec dataname datatype
  = Ok (true, match vs with [] => None | _ => Some (StoredFloats vs) end).
Proof.
  intros Hp Hn Ht Hb Hvs. unfold gettextureinfo_attribute.
  rewrite Hp, <- Hn, Z.eqb_refl, Ht, Hb, Hvs. reflexivity.
Qed.

(** C6. The int-to-float translation of [gettextureinfo] is taken the wrong
    way round.  The attribute "samples" stored as the [int] 3 and asked for
    as a [float] is refused: [false], nothing stored.  The attribute "gamma"
    stored as the [float] 1.0 and asked for as an [int] is accepted: the bits
    of 1.0 are read as the [int] 1065353216, which is stored as a [float]. *)
Theorem gettextureinfo_translates_the_wrong_way :
  (exists sys',
     gettextureinfo 0 Scenario.disk TextureSystemImpl_new "tagged.tx" "samples"
       (ParamType_scalar PT_FLOAT) = Ok (sys', false, None))
  /\ (exists sys',
        gettextureinfo 0 Scenario.disk TextureSystemImpl_new "tagged.tx" "gamma"
          (ParamType_scalar PT_INT)
        = Ok (sys', true, Some (StoredFloats [F32.of_int 1065353216]))).
Proof.
  split; eexists; vm_compute; reflexivity.
Qed.

(** ** texture_lookup *)

(** Stores and loads within the extent of an array succeed. *)
Lemma store_ok {A} (buf : list A) (i : Z) (v : A) :
  0 <= i < Z.of_nat (length buf) ->
  store buf i v = Ok (<[Z.to_nat i := v]> buf).
Proof.
  intros [H0 H1]. unfold store.
  destruct (Z.leb_spec 0 i); [|lia]. destruct (Z.ltb_spec i (Z.of_nat (length buf))); [|lia].
  reflexivity.
Qed.

Lemma store_result_ok (m : Mem) (i : Z) (v : float) :
  0 <= i < Z.of_nat (length (result_buf m)) ->
  store_result m i v = Ok (mkMem (<[Z.to_nat i := v]> (result_buf m)) (alpha_buf m)).
Proof. intros H. unfold store_result. rewrite (store_ok _ _ _ H). reflexivity. Qed.

(** C4 (amended). Wrap modes are not implemented in [texture_lookup]: for
    every wrap mode (black included) and every fill, a lookup whose texel
    coordinate [floor (s * width - 0.5)] or [floor (t * height - 0.5)] falls
    outside the texture stores [s] and [t] in the first two floats of the
    lane's result, then 1 (not the fill) in the first, and returns without
    touching the tile cache or the alpha array. *)
Theorem texture_lookup_outside_stores_one
    (disk : Disk) (sys : TextureSystemImpl) (texturefile : string)
    (options : TextureOptions) (index : Z) (_s _t : VaryingRef) (resultp : Z)
    (mem : Mem) (tf : TextureFile) (spec : ImageIOFormatSpec)
    (specs : list ImageIOFormatSpec) (sv tv : float) :
  m_texturefiles sys !! texturefile = Some tf ->
  m_spec tf = spec :: specs ->
  vr_index _s index = Ok sv ->
  vr_index _t index = Ok tv ->
  0 <= resultp + index * opt_nchannels options ->
  resultp + index * opt_nchannels options + 1 < Z.of_nat (length (result_buf mem)) ->
  (texel_coord sv (width spec) < 0 \/ width spec <= texel_coord sv (width spec)
   \/ texel_coord tv (height spec) < 0 \/ height spec <= texel_coord tv (height spec)) ->
  texture_lookup disk sys texturefile options index _s _t resultp mem
  = Ok (sys,
        mkMem (<[Z.to_nat (resultp + index * opt_nchannels options) := F32.one]>
                 (<[Z.to_nat (resultp + index * opt_nchannels options + 1) := tv]>
                    (<[Z.to_nat (resultp + index * opt_nchannels options) := sv]>
                       (result_buf mem))))
          (alpha_buf mem)).
Proof.
  intros Hf Hs Hsv Htv Hlo Hhi Hout. unfold texture_lookup.
  set (base := resultp + index * opt_nchannels options) in *.
  rewrite Hsv. cbn [mbind result_bind].
  rewrite store_result_ok by lia. cbn [mbind result_bind].
  rewrite Htv. cbn [mbind result_bind].
  rewrite store_result_ok by (cbn [result_buf]; rewrite length_insert; lia).
  cbn [mbind result_bind result_buf alpha_buf].
  rewrite Hf, Hs.
  assert (Hb : (texel_coord sv (width spec) <? 0)
               || (width spec <=? texel_coord sv (width spec))
               || (texel_coord tv (height spec) <? 0)
               || (height spec <=? texel_coord tv (height spec)) = true).
  { rewrite !orb_true_iff, !Z.ltb_lt, !Z.leb_le. tauto. }
  rewrite Hb.
  rewrite store_result_ok by (cbn [result_buf]; rewrite !length_insert; lia).
  reflexivity.
Qed.

(** The lookup at (-0.1, 0.5) in the 2x2 texture, black wrap, fill 0.7. *)
Lemma texture_lookup_outside_stores_one_witness :
  find_texturefile 0 Scenario.disk TextureSystemImpl_new "checker.tx"
  = Ok Scenario.checker_sys
  /\ texel_coord (F32.lit (-1) 10) 2 = -1
  /\ texture_lookup Scenario.disk Scenario.checker_sys "checker.tx"
       (Scenario.options 1 WrapBlack WrapBlack (F32.lit 7 10) None) 0
       (Scenario.uniform (F32.lit (-1) 10)) (Scenario.uniform F32.half) 0
       (mkMem [F32.zero; F32.zero] [])
     = Ok (Scenario.checker_sys, mkMem [F32.one; F32.half] []).
Proof.
  split; [evaluate|]. split; [evaluate|].
  refine (texture_lookup_outside_stores_one Scenario.disk Scenario.checker_sys
            "checker.tx"
            (Scenario.options 1 WrapBlack WrapBlack (F32.lit 7 10) None) 0
            (Scenario.uniform (F32.lit (-1) 10)) (Scenario.uniform F32.half) 0
            (mkMem [F32.zero; F32.zero] []) Scenario.checker_tf
            Scenario.checker_spec [] (F32.lit (-1) 10) F32.half _ _ _ _ _ _ _);
    [evaluate..|].
  left. evaluate.
Defined.

(** C4 as stated fails: sampling the 2x2 texture at (-0.1, 0.5) with black
    wrap, fill 0.7 and one channel (the result array having room for the two
    floats a lookup always writes) yields [result[0] = 1], not 0.7. *)
Lemma black_wrap_outside_is_not_fill :
  exists sys' options' mem',
    texture 0 Scenario.disk TextureSystemImpl_new "checker.tx"
      (Scenario.options 1 WrapBlack WrapBlack (F32.lit 7 10) None) [true] 0 0
      (Scenario.uniform (F32.lit (-1) 10)) (Scenario.uniform F32.half)
      (mkMem [F32.zero; F32.zero] [])
    = Ok (sys', options', mem')
    /\ result_buf mem' !! 0%nat = Some F32.one
    /\ F32.one <> F32.lit 7 10.
Proof.
  eexists _, _, _. split; [vm_compute; reflexivity|].
  split; [reflexivity|]. vm_compute. discriminate.
Qed.

Lemma load_ok {A} (buf : list A) (i : Z) :
  0 <= i < Z.of_nat (length buf) ->
  exists v, buf !! Z.to_nat i = Some v /\ load buf i = Ok v.
Proof.
  intros [H0 H1]. unfold load. destruct (Z.leb_spec 0 i); [|lia].
  destruct (buf !! Z.to_nat i) as [v|] eqn:Hl; [eauto|].
  apply lookup_ge_None in Hl. lia.
Qed.

(** The channel loop of [texture_lookup]: [n] channels from [c0] on are
    copied from the texels at [data + c] to the result at [base + c], and
    nothing else is written. *)
Lemma copy_channels_loop (texels : list float) (data base : Z) (n : nat) :
  forall (c0 : Z) (mem : Mem),
  0 <= data + c0 ->
  data + c0 + Z.of_nat n <= Z.of_nat (length texels) ->
  0 <= base + c0 ->
  base + c0 + Z.of_nat n <= Z.of_nat (length (result_buf mem)) ->
  exists mem',
    loop_from n c0
      (fun c mem => v ← load texels (data + c); store_result mem (base + c) v) mem
    = Ok mem'
    /\ alpha_buf mem' = alpha_buf mem
    /\ length (result_buf mem') = length (result_buf mem)
    /\ (forall c, c0 <= c < c0 + Z.of_nat n ->
          result_buf mem' !! Z.to_nat (base + c) = texels !! Z.to_nat (data + c))
    /\ (forall j, (j < Z.to_nat (base + c0))%nat \/ (Z.to_nat (base + c0) + n <= j)%nat ->
          result_buf mem' !! j = result_buf mem !! j).
Proof.
  induction n as [|n IH]; intros c0 mem Hd0 Hd1 Hb0 Hb1.
  - exists mem. cbn [loop_from]. repeat split; auto. intros c Hc. lia.
  - cbn [loop_from].
    destruct (load_ok texels (data + c0)) as (v & Hv & Hload); [lia|].
    rewrite Hload. cbn [mbind result_bind].
    rewrite store_result_ok by lia. cbn [mbind result_bind].
    destruct (IH (c0 + 1)
                (mkMem (<[Z.to_nat (base + c0) := v]> (result_buf mem)) (alpha_buf mem)))
      as (mem' & Hloop & Ha & Hlen & Hcopy & Hframe);
      try (cbn [result_buf]; rewrite ?length_insert; lia).
    exists mem'. split; [exact Hloop|].
    cbn [result_buf alpha_buf] in *. rewrite length_insert in Hlen.
    split; [exact Ha|]. split; [exact Hlen|]. split.
    + intros c Hc. destruct (Z.eq_dec c c0) as [->|Hne].
      * rewrite Hframe by lia. rewrite list_lookup_insert_eq by lia. congruence.
      * apply Hcopy. lia.
    + intros j Hj. rewrite Hframe by lia. apply list_lookup_insert_ne. lia.
Qed.

(** C5 (amended). [texture_lookup] is an unfiltered, uninterpolated lookup:
    inside the texture it fetches the single texel at the integer coordinate
    [(sint, tint) = (floor (s * width - 0.5), floor (t * height - 0.5))] from
    its tile and copies its channels to the result unblended, the fractions
    playing no part; with an alpha output the channel after the last colour
    goes to [alpha[index]]. *)
Theorem texture_lookup_copies_one_texel
    (disk : Disk) (sys sys1 : TextureSystemImpl) (texturefile : string)
    (options : TextureOptions) (index : Z) (_s _t : VaryingRef) (resultp : Z)
    (mem : Mem) (tf : TextureFile) (spec : ImageIOFormatSpec)
    (specs : list ImageIOFormatSpec) (sv tv : float) (tile : Tile) :
  let base := resultp + index * opt_nchannels options in
  let sint := texel_coord sv (width spec) in
  let tint := texel_coord tv (height spec) in
  let tile_s := Z.land sint (tile_width spec - 1) in
  let tile_t := Z.land tint (tile_height spec - 1) in
  let data := (tile_t * tile_width spec + tile_s) * nchannels spec
              + firstchannel options in
  m_texturefiles sys !! texturefile = Some tf ->
  m_spec tf = spec :: specs ->
  vr_index _s index = Ok sv ->
  vr_index _t index = Ok tv ->
  0 <= sint < width spec ->
  0 <= tint < height spec ->
  find_tile disk sys (mkTileID texturefile 0 (sint - tile_s) (tint - tile_t) 0)
  = Ok (tile, sys1) ->
  0 <= base ->
  base + Z.max 2 (actualchannels options) <= Z.of_nat (length (result_buf mem)) ->
  0 <= data ->
  data + Z.max 0 (actualchannels options) <= Z.of_nat (length (tile_texels tile)) ->
  (forall step, alpha options = Some step ->
     0 <= index * step < Z.of_nat (length (alpha_buf mem))
     /\ 0 <= data + actualchannels options < Z.of_nat (length (tile_texels tile))) ->
  exists mem',
    texture_lookup disk sys texturefile options index _s _t resultp mem
    = Ok (sys1, mem')
    /\ (forall c, 0 <= c < actualchannels options ->
          result_buf mem' !! Z.to_nat (base + c)
          = tile_texels tile !! Z.to_nat (data + c))
    /\ (forall step, alpha options = Some step ->
          alpha_buf mem' !! Z.to_nat (index * step)
          = tile_texels tile !! Z.to_nat (data + actualchannels options))
    /\ (alpha options = None -> alpha_buf mem' = alpha_buf mem).
Proof.
  intros base sint tint tile_s tile_t data Hf Hs Hsv Htv Hsin Htin Hft Hb0 Hb1
    Hd0 Hd1 Halpha.
  unfold texture_lookup. fold base.
  rewrite Hsv. cbn [mbind result_bind].
  rewrite store_result_ok by lia. cbn [mbind result_bind].
  rewrite Htv. cbn [mbind result_bind].
  rewrite store_result_ok by (cbn [result_buf]; rewrite length_insert; lia).
  cbn [mbind result_bind result_buf alpha_buf].
  rewrite Hf, Hs. fold sint tint.
  assert (Hin : (sint <? 0) || (width spec <=? sint) || (tint <? 0)
                || (height spec <=? tint) = false).
  { rewrite !orb_false_iff, !Z.ltb_ge, !Z.leb_gt. lia. }
  rewrite Hin. fold tile_s tile_t. rewrite Hft. cbn [mbind result_bind].
  unfold for_range.
  set (mem2 := mkMem _ (alpha_buf mem)).
  destruct (copy_channels_loop (tile_texels tile) data base
              (Z.to_nat (actualchannels options - 1 - 0 + 1)) 0 mem2)
    as (mem' & Hloop & Ha & Hlen & Hcopy & _);
    try (subst mem2; cbn [result_buf]; rewrite ?length_insert; lia).
  assert (Hbody :
    (fun (c : Z) (mem : Mem) =>
       v ← load (tile_texels tile)
             ((tile_t * tile_width spec + tile_s) * nchannels spec
              + firstchannel options + c);
       store_result mem (base + c) v)
    = (fun (c : Z) (mem : Mem) =>
         v ← load (tile_texels tile) (data + c); store_result mem (base + c) v))
    by reflexivity.
  rewrite Hbody, Hloop. cbn [mbind result_bind].
  destruct (alpha options) as [step|] eqn:Ealpha.
  - destruct (Halpha step eq_refl) as [Ha0 Ha1].
    replace ((tile_t * tile_width spec + tile_s) * nchannels spec
             + firstchannel options + actualchannels options)
      with (data + actualchannels options) by (subst data; lia).
    destruct (load_ok (tile_texels tile) (data + actualchannels options))
      as (v & Hv & Hload); [lia|].
    rewrite Hload. cbn [mbind result_bind]. unfold store_alpha.
    rewrite store_ok by (rewrite Ha; subst mem2; cbn [alpha_buf]; lia).
    cbn [mbind result_bind].
    eexists. split; [reflexivity|]. cbn [result_buf alpha_buf].
    split; [intros c Hc; apply Hcopy; lia|].
    split; [|discriminate].
    intros step' [= <-]. rewrite Hv. apply list_lookup_insert_eq.
    rewrite Ha. subst mem2. cbn [alpha_buf]. lia.
  - exists mem'. split; [reflexivity|].
    split; [intros c Hc; apply Hcopy; lia|].
    split; [discriminate|]. intros _. exact Ha.
Qed.




(** The lookup at (0.5, 0.5) in the 2x2 texture: texel (0, 0), which is 0. *)
Lemma texture_lookup_copies_one_texel_witness :
  find_texturefile 0 Scenario.disk TextureSystemImpl_new "checker.tx" = Ok Scenario.checker_sys
  /\ texel_coord F32.half 2 = 0
  /\ find_tile Scenario.disk Scenario.checker_sys (mkTileID "checker.tx" 0 0 0 0)
     = Ok (Scenario.checker_tile, Scenario.checker_sys1)
  /\ exists mem',
       texture_lookup Scenario.disk Scenario.checker_sys "checker.tx"
         (set_actualchannels 1
            (Scenario.options 1 WrapBlack WrapBlack F32.zero None)) 0
         (Scenario.uniform F32.half) (Scenario.uniform F32.half) 0
         (mkMem [F32.one; F32.one] [])
       = Ok (Scenario.checker_sys1, mem')
       /\ result_buf mem' !! 0%nat = Some F32.zero.
Proof.
  split; [evaluate|]. split; [evaluate|]. split; [evaluate|].
  destruct (texture_lookup_copies_one_texel Scenario.disk Scenario.checker_sys Scenario.checker_sys1
              "checker.tx"
              (set_actualchannels 1
                 (Scenario.options 1 WrapBlack WrapBlack F32.zero None)) 0
              (Scenario.uniform F32.half) (Scenario.uniform F32.half) 0
              (mkMem [F32.one; F32.one] []) Scenario.checker_tf Scenario.checker_spec []
              F32.half F32.half Scenario.checker_tile)
    as (mem' & Hrun & Hcopy & _); [evaluate..|].
  exists mem'. split; [exact Hrun|]. apply (Hcopy 0). evaluate.
Defined.

(** C5 as stated fails: sampling the 2x2 texture [[0,1],[1,0]] at (0.5, 0.5)
    yields the texel (0, 0), which is 0, not the bilinear blend 0.5. *)
Lemma point_sample_is_not_bilinear :
  exists sys' options' mem',
    texture 0 Scenario.disk TextureSystemImpl_new "checker.tx"
      (Scenario.options 1 WrapBlack WrapBlack F32.zero None) [true] 0 0
      (Scenario.uniform F32.half) (Scenario.uniform F32.half)
      (mkMem [F32.one; F32.one] [])
    = Ok (sys', options', mem')
    /\ result_buf mem' !! 0%nat = Some F32.zero
    /\ F32.zero <> F32.half.
Proof.
  eexists _, _, _. split; [vm_compute; reflexivity|].
  split; [reflexivity|]. vm_compute. discriminate.
Qed.

(** ** texture *)

(** The alpha reference as the code leaves it: nulled when it was set and
    [actualchannels + 1 < nchannels], the test of the source. *)
Lemma texture_options_after
    (fuel : nat) (disk : Disk) (sys sys1 sys' : TextureSystemImpl)
    (filename : string) (options options' : TextureOptions)
    (runflags : list bool) (firstactive lastactive : Z) (s t : VaryingRef)
    (mem mem' : Mem) (tf : TextureFile) (spec : ImageIOFormatSpec)
    (specs : list ImageIOFormatSpec) :
  find_texturefile fuel disk sys filename = Ok sys1 ->
  m_texturefiles sys1 !! filename = Some tf ->
  m_broken tf = false ->
  m_spec tf = spec :: specs ->
  texture fuel disk sys filename options runflags firstactive lastactive s t mem
  = Ok (sys', options', mem') ->
  options'
  = set_alpha
      (match alpha options with
       | Some step =>
           if clamp (nchannels spec - firstchannel options) 0 (opt_nchannels options)
              + 1 <? opt_nchannels options
           then None else Some step
       | None => None
       end)
      (options_left_by_texture tf spec options).
Proof.
  intros Hfind Htf Hb Hs. unfold texture. rewrite Hfind.
  cbn [mbind result_bind]. rewrite Htf, Hb, Hs. unfold texture_unbroken.
  set (o1 := set_actualchannels _ (set_wraps _ _ options)).
  set (left := set_alpha _ (options_left_by_texture tf spec options)).
  assert (Ho1 : set_alpha
                  (match alpha o1 with
                   | Some step =>
                       if actualchannels o1 + 1 <? opt_nchannels o1
                       then None else Some step
                   | None => None
                   end) o1
                = left).
  { subst o1 left.
    unfold options_left_by_texture, set_alpha, set_actualchannels, set_wraps.
    cbn [firstchannel opt_nchannels swrap twrap sblur tblur swidth twidth bias
         fill alpha actualchannels stateful].
    f_equal.
    - destruct (decide (swrap options = WrapDefault)) as [E|E];
        [rewrite bool_decide_eq_true_2 | rewrite bool_decide_eq_false_2]; auto.
    - destruct (decide (twrap options = WrapDefault)) as [E|E];
        [rewrite bool_decide_eq_true_2 | rewrite bool_decide_eq_false_2]; auto. }
  assert (Hac : actualchannels left = actualchannels o1) by reflexivity.
  clearbody left.
  destruct (if actualchannels o1 <? opt_nchannels o1
            then texture_fill_channels o1 runflags firstactive lastactive mem
            else Ok mem) as [mem1|f]; [|discriminate].
  cbn [mbind result_bind].
  assert (Hstep :
      (exists mem2, match alpha o1 with
       | Some step =>
           if actualchannels o1 + 1 <? opt_nchannels o1
           then mem ← texture_fill_alpha o1 step firstactive lastactive mem1;
                Ok (set_alpha None o1, mem)
           else Ok (o1, mem1)
       | None => Ok (o1, mem1)
       end = Ok (left, mem2))
      \/ exists f, match alpha o1 with
                   | Some step =>
                       if actualchannels o1 + 1 <? opt_nchannels o1
                       then mem ← texture_fill_alpha o1 step firstactive lastactive mem1;
                            Ok (set_alpha None o1, mem)
                       else Ok (o1, mem1)
                   | None => Ok (o1, mem1)
                   end = Fault f).
  { rewrite <- Ho1. destruct o1 as [fc nc sw tw sb tb swi twi bi fi [step|] ac st];
      cbn [alpha actualchannels opt_nchannels set_alpha].
    - destruct (ac + 1 <? nc).
      + destruct (texture_fill_alpha _ step firstactive lastactive mem1) as [m|f];
          cbn [mbind result_bind]; eauto.
      + eauto.
    - eauto. }
  destruct Hstep as [[mem2 Hstep]|[f Hstep]]; rewrite Hstep; [|discriminate].
  cbn [mbind result_bind]. rewrite Hac.
  destruct (actualchannels o1 <? 1).
  - intros [= <- <- <-]. reflexivity.
  - destruct (for_range firstactive lastactive _ (sys1, mem2)) as [[sys2 mem3]|f];
      [|discriminate].
    cbn [mbind result_bind]. intros [= <- <- <-]. reflexivity.
Qed.

(** The channel loop of the broken-file path: [n] floats from [resultp + c0]
    on receive the fill, and nothing else is written. *)
Lemma fill_channels_loop (fillref : VaryingRef) (v : float) (resultp : Z) (n : nat) :
  forall (c0 : Z) (mem : Mem),
  vr_deref fillref = Ok v ->
  0 <= resultp + c0 ->
  resultp + c0 + Z.of_nat n <= Z.of_nat (length (result_buf mem)) ->
  exists mem',
    loop_from n c0
      (fun c mem => v ← vr_deref fillref; store_result mem (resultp + c) v) mem
    = Ok mem'
    /\ alpha_buf mem' = alpha_buf mem
    /\ length (result_buf mem') = length (result_buf mem)
    /\ (forall j, (Z.to_nat (resultp + c0) <= j < Z.to_nat (resultp + c0) + n)%nat ->
          result_buf mem' !! j = Some v)
    /\ (forall j, (j < Z.to_nat (resultp + c0) \/ Z.to_nat (resultp + c0) + n <= j)%nat ->
          result_buf mem' !! j = result_buf mem !! j).
Proof.
  set (body := fun (c : Z) (mem : Mem) =>
                  v ← vr_deref fillref; store_result mem (resultp + c) v).
  induction n as [|n IH]; intros c0 mem Hv H0 H1.
  - exists mem. cbn [loop_from]. repeat split; auto. intros j Hj. lia.
  - cbn [loop_from].
    assert (Hstep : body c0 mem
                    = Ok (mkMem (<[Z.to_nat (resultp + c0) := v]> (result_buf mem))
                            (alpha_buf mem))).
    { unfold body. rewrite Hv. cbn [mbind result_bind]. apply store_result_ok. lia. }
    rewrite Hstep. cbn [mbind result_bind].
    destruct (IH (c0 + 1)
                (mkMem (<[Z.to_nat (resultp + c0) := v]> (result_buf mem))
                   (alpha_buf mem)) Hv)
      as (mem' & Hloop & Ha & Hlen & Hfill & Hframe);
      try (cbn [result_buf]; rewrite ?length_insert; lia).
    exists mem'. split; [exact Hloop|].
    cbn [result_buf alpha_buf] in *. rewrite length_insert in Hlen.
    split; [exact Ha|]. split; [exact Hlen|]. split.
    + intros j Hj. destruct (decide (j = Z.to_nat (resultp + c0))) as [->|Hne].
      * rewrite Hframe by lia. apply list_lookup_insert_eq. lia.
      * apply Hfill. lia.
    + intros j Hj. rewrite Hframe by lia. apply list_lookup_insert_ne. lia.
Qed.

(** The lanes of the broken-file path, [n] of them from lane [i] on with the
    pointer at [resultp]: the [k]-th of them owns the [nchannels] floats at
    [resultp + k * nchannels], which receive the fill when the lane is
    active and are left alone when it is not. *)
Lemma fill_broken_loop (options : TextureOptions) (runflags : list bool)
    (v : float) (n : nat) :
  forall (i resultp : Z) (mem : Mem),
  alpha options = None ->
  vr_deref (fill options) = Ok v ->
  0 <= opt_nchannels options ->
  0 <= i ->
  i + Z.of_nat n <= Z.of_nat (length runflags) ->
  0 <= resultp ->
  resultp + Z.of_nat n * opt_nchannels options <= Z.of_nat (length (result_buf mem)) ->
  exists mem',
    loop_from n i (texture_fill_broken_lane options runflags) (mem, resultp)
    = Ok (mem', resultp + Z.of_nat n * opt_nchannels options)
    /\ alpha_buf mem' = alpha_buf mem
    /\ length (result_buf mem') = length (result_buf mem)
    /\ (forall k c, 0 <= k < Z.of_nat n -> 0 <= c < opt_nchannels options ->
          result_buf mem' !! Z.to_nat (resultp + k * opt_nchannels options + c)
          = if default false (runflags !! Z.to_nat (i + k)) then Some v
            else result_buf mem !! Z.to_nat (resultp + k * opt_nchannels options + c))
    /\ (forall j, (j < Z.to_nat resultp
                   \/ Z.to_nat (resultp + Z.of_nat n * opt_nchannels options) <= j)%nat ->
          result_buf mem' !! j = result_buf mem !! j).
Proof.
  set (C := opt_nchannels options).
  induction n as [|n IH]; intros i resultp mem Halpha Hv HC Hi0 Hi1 Hr0 Hr1.
  - exists mem. cbn [loop_from]. replace (resultp + Z.of_nat 0 * C) with resultp by lia.
    repeat split; auto. intros k c Hk. lia.
  - cbn [loop_from].
    destruct (load_ok runflags i) as (flag & Hflag & Hload); [lia|].
    assert (Hlane : exists mem1,
      (if flag
       then mem0 ← for_range 0 (C - 1)
                     (fun c mem0 => v0 ← vr_deref (fill options);
                                    store_result mem0 (resultp + c) v0) mem;
            match alpha options with
            | Some step => v0 ← vr_deref (fill options); store_alpha mem0 (i * step) v0
            | None => Ok mem0
            end
       else Ok mem) = Ok mem1
      /\ alpha_buf mem1 = alpha_buf mem
      /\ length (result_buf mem1) = length (result_buf mem)
      /\ (forall j, (Z.to_nat resultp <= j < Z.to_nat (resultp + C))%nat ->
            result_buf mem1 !! j = if flag then Some v else result_buf mem !! j)
      /\ (forall j, (j < Z.to_nat resultp \/ Z.to_nat (resultp + C) <= j)%nat ->
            result_buf mem1 !! j = result_buf mem !! j)).
    { destruct flag.
      - unfold for_range.
        destruct (fill_channels_loop (fill options) v resultp
                    (Z.to_nat (C - 1 - 0 + 1)) 0 mem Hv)
          as (mem1 & Hloop & Ha & Hlen & Hfill & Hframe); try nia.
        rewrite Hloop. cbn [mbind result_bind]. rewrite Halpha.
        exists mem1. split; [reflexivity|]. split; [exact Ha|]. split; [exact Hlen|].
        split; intros j Hj; [apply Hfill | apply Hframe]; lia.
      - exists mem. repeat split; auto. }
    destruct Hlane as (mem1 & Hrun & Ha1 & Hlen1 & Hown1 & Hframe1).
    assert (Hstep : texture_fill_broken_lane options runflags i (mem, resultp)
                    = Ok (mem1, resultp + C)).
    { unfold texture_fill_broken_lane. rewrite Hload. cbn [mbind result_bind].
      fold C. rewrite Hrun. reflexivity. }
    rewrite Hstep. cbn [mbind result_bind].
    destruct (IH (i + 1) (resultp + C) mem1 Halpha Hv HC
                ltac:(lia) ltac:(lia) ltac:(lia) ltac:(rewrite Hlen1; nia))
      as (mem' & Hloop & Ha & Hlen & Hown & Hframe).
    exists mem'. split.
    { rewrite Hloop. do 2 f_equal. nia. }
    split; [congruence|]. split; [congruence|]. split.
    + intros k c Hk Hc. destruct (Z.eq_dec k 0) as [->|Hne].
      * rewrite Hframe by nia. rewrite Hown1 by nia.
        replace (i + 0) with i by lia. rewrite Hflag. reflexivity.
      * replace (resultp + k * C + c) with (resultp + C + (k - 1) * C + c) by lia.
        rewrite (Hown (k - 1) c) by lia.
        replace (i + 1 + (k - 1)) with (i + k) by lia.
        destruct (default false (runflags !! Z.to_nat (i + k))); [reflexivity|].
        apply Hframe1. nia.
    + intros j Hj. rewrite Hframe by nia. apply Hframe1. nia.
Qed.

(** X22. On a missing or broken file without alpha output, the lane [i] of the
    window [firstactive .. lastactive] is written at offset
    [(i - firstactive) * nchannels], not [i * nchannels]: the floats there
    receive the fill when the lane is active, and no other float of [result]
    changes. *)
Lemma texture_fill_broken_slots (options : TextureOptions) (runflags : list bool)
    (firstactive lastactive : Z) (mem : Mem) (v : float) :
  alpha options = None ->
  vr_deref (fill options) = Ok v ->
  0 <= opt_nchannels options ->
  0 <= firstactive <= lastactive ->
  lastactive < Z.of_nat (length runflags) ->
  (lastactive - firstactive + 1) * opt_nchannels options
  <= Z.of_nat (length (result_buf mem)) ->
  exists mem',
    texture_fill_broken options runflags firstactive lastactive mem = Ok mem'
    /\ alpha_buf mem' = alpha_buf mem
    /\ (forall i c, firstactive <= i <= lastactive -> 0 <= c < opt_nchannels options ->
          result_buf mem' !! Z.to_nat ((i - firstactive) * opt_nchannels options + c)
          = if default false (runflags !! Z.to_nat i) then Some v
            else result_buf mem
                   !! Z.to_nat ((i - firstactive) * opt_nchannels options + c))
    /\ (forall j, (Z.to_nat ((lastactive - firstactive + 1) * opt_nchannels options)
                   <= j)%nat ->
          result_buf mem' !! j = result_buf mem !! j).
Proof.
  intros Halpha Hv HC Hwin Hflags Hres. unfold texture_fill_broken, for_range.
  destruct (fill_broken_loop options runflags v
              (Z.to_nat (lastactive - firstactive + 1)) firstactive 0 mem
              Halpha Hv HC)
    as (mem' & Hloop & Ha & _ & Hown & Hframe); try lia.
  rewrite Hloop. cbn [mbind result_bind].
  exists mem'. split; [reflexivity|]. split; [exact Ha|]. split.
  - intros i c Hi Hc.
    specialize (Hown (i - firstactive) c ltac:(lia) Hc).
    replace (firstactive + (i - firstactive)) with i in Hown by lia.
    exact Hown.
  - intros j Hj. apply Hframe. right.
    replace (0 + Z.of_nat (Z.to_nat (lastactive - firstactive + 1))
               * opt_nchannels options)
      with ((lastactive - firstactive + 1) * opt_nchannels options) by lia.
    exact Hj.
Qed.

Lemma texture_fill_broken_slots_witness :
  exists mem',
    texture_fill_broken (Scenario.options 1 WrapDefault WrapDefault (F32.lit 1 4) None)
      [false; true] 1 1 (mkMem [F32.zero; F32.zero] []) = Ok mem'
    /\ result_buf mem' !! 0%nat = Some (F32.lit 1 4)
    /\ result_buf mem' !! 1%nat = Some F32.zero.
Proof.
  destruct (texture_fill_broken_slots
              (Scenario.options 1 WrapDefault WrapDefault (F32.lit 1 4) None)
              [false; true] 1 1 (mkMem [F32.zero; F32.zero] []) (F32.lit 1 4)
              eq_refl eq_refl) as (mem' & H & _ & Hin & Hout);
    [cbn; lia..|].
  exists mem'. split; [exact H|]. split.
  - exact (Hin 1 0 ltac:(lia) ltac:(cbn; lia)).
  - exact (Hout 1%nat ltac:(cbn; lia)).
Defined.

(** What the code does to the options object, and that it persists: after a
    call on an unbroken file a default [swrap] or [twrap] holds the file's
    declared wrap and [actualchannels] is stored; a second call handed the
    same object starts from these values, not the caller's originals: a wrap
    taken from the first file is kept whatever the second declares, and a
    nulled alpha stays null. *)
Lemma texture_options_persist
    (fuel fuel2 : nat) (disk disk2 : Disk)
    (sys sys1 sys' sys2 sys'' : TextureSystemImpl)
    (filename filename2 : string) (options options' options'' : TextureOptions)
    (runflags runflags2 : list bool) (firstactive lastactive first2 last2 : Z)
    (s t s2 t2 : VaryingRef) (mem mem' mem'' : Mem)
    (tf tf2 : TextureFile) (spec spec2 : ImageIOFormatSpec)
    (specs specs2 : list ImageIOFormatSpec) :
  find_texturefile fuel disk sys filename = Ok sys1 ->
  m_texturefiles sys1 !! filename = Some tf ->
  m_broken tf = false ->
  m_spec tf = spec :: specs ->
  texture fuel disk sys filename options runflags firstactive lastactive s t mem
  = Ok (sys', options', mem') ->
  find_texturefile fuel2 disk2 sys' filename2 = Ok sys2 ->
  m_texturefiles sys2 !! filename2 = Some tf2 ->
  m_broken tf2 = false ->
  m_spec tf2 = spec2 :: specs2 ->
  texture fuel2 disk2 sys' filename2 options' runflags2 first2 last2 s2 t2 mem'
  = Ok (sys'', options'', mem'') ->
  swrap options' = swrap (options_left_by_texture tf spec options)
  /\ twrap options' = twrap (options_left_by_texture tf spec options)
  /\ actualchannels options'
     = clamp (nchannels spec - firstchannel options) 0 (opt_nchannels options)
  /\ (swrap options = WrapDefault -> m_swrap tf <> WrapDefault ->
      swrap options'' = m_swrap tf)
  /\ (twrap options = WrapDefault -> m_twrap tf <> WrapDefault ->
      twrap options'' = m_twrap tf)
  /\ (alpha options' = None -> alpha options'' = None).
Proof.
  intros Hf1 Ht1 Hb1 Hs1 Hcall1 Hf2 Ht2 Hb2 Hs2 Hcall2.
  pose proof (texture_options_after fuel disk sys sys1 sys' filename options
                options' runflags firstactive lastactive s t mem mem' tf spec
                specs Hf1 Ht1 Hb1 Hs1 Hcall1) as H1.
  pose proof (texture_options_after fuel2 disk2 sys' sys2 sys'' filename2
                options' options'' runflags2 first2 last2 s2 t2 mem' mem'' tf2
                spec2 specs2 Hf2 Ht2 Hb2 Hs2 Hcall2) as H2.
  split; [rewrite H1; reflexivity|]. split; [rewrite H1; reflexivity|].
  split; [rewrite H1; reflexivity|].
  rewrite H2. unfold options_left_by_texture, set_alpha.
  cbn [swrap twrap alpha firstchannel opt_nchannels].
  split; [|split].
  - intros Hd Hn. rewrite H1. unfold options_left_by_texture, set_alpha.
    cbn [swrap twrap alpha firstchannel opt_nchannels].
    rewrite (decide_True _ _ Hd), (decide_False _ _ Hn). reflexivity.
  - intros Hd Hn. rewrite H1. unfold options_left_by_texture, set_alpha.
    cbn [swrap twrap alpha firstchannel opt_nchannels].
    rewrite (decide_True _ _ Hd), (decide_False _ _ Hn). reflexivity.
  - intros Ha. rewrite Ha. reflexivity.
Qed.

(** Two calls with one options object: the wraps of "wrapped.tx" survive the
    call on "checker.tx", and so does the nulled alpha. *)
Lemma texture_options_persist_example :
  let mem' := mkMem [F32.zero; F32.half; F32.half] [F32.half] in
  texture 0 Scenario.disk TextureSystemImpl_new "wrapped.tx" Scenario.caller_options [true] 0 0
    (Scenario.uniform F32.half) (Scenario.uniform F32.half)
    (mkMem [F32.zero; F32.zero; F32.zero] [F32.zero])
  = Ok (Scenario.wrapped_sys1, Scenario.caller_options', mem')
  /\ texture 0 Scenario.disk Scenario.wrapped_sys1 "checker.tx" Scenario.caller_options' [true] 0 0
       (Scenario.uniform F32.half) (Scenario.uniform F32.half) mem'
     = Ok (Scenario.both_sys1, Scenario.caller_options', mem')
  /\ swrap Scenario.caller_options' = WrapPeriodic
  /\ twrap Scenario.caller_options' = WrapClamp
  /\ alpha Scenario.caller_options' = None.
Proof.
  intros mem'. evaluate.
Qed.

(** On an unbroken file that lacks the alpha channel of the request while at
    most one of the requested channels is missing, a call that returns has
    left the alpha reference set: the test of the source,
    [actualchannels + 1 < nchannels], does not hold there. *)
Lemma texture_alpha_kept
    (fuel : nat) (disk : Disk) (sys sys1 sys' : TextureSystemImpl)
    (filename : string) (options options' : TextureOptions)
    (runflags : list bool) (firstactive lastactive : Z) (s t : VaryingRef)
    (mem mem' : Mem) (tf : TextureFile) (spec : ImageIOFormatSpec)
    (specs : list ImageIOFormatSpec) (step : Z) :
  find_texturefile fuel disk sys filename = Ok sys1 ->
  m_texturefiles sys1 !! filename = Some tf ->
  m_broken tf = false ->
  m_spec tf = spec :: specs ->
  alpha options = Some step ->
  file_lacks_alpha spec options = true ->
  opt_nchannels options - 1 <= nchannels spec - firstchannel options ->
  texture fuel disk sys filename options runflags firstactive lastactive s t mem
  = Ok (sys', options', mem') ->
  alpha options' = Some step
  /\ alpha (options_left_by_texture tf spec options) = None.
Proof.
  intros Hf Ht Hb Hs Ha Hlacks Hone Hcall.
  rewrite (texture_options_after fuel disk sys sys1 sys' filename options options'
             runflags firstactive lastactive s t mem mem' tf spec specs
             Hf Ht Hb Hs Hcall).
  unfold options_left_by_texture, set_alpha. cbn [alpha]. rewrite Ha, Hlacks.
  split; [|reflexivity].
  unfold file_lacks_alpha in Hlacks. apply Z.leb_le in Hlacks.
  assert (Hno : (clamp (nchannels spec - firstchannel options) 0
                   (opt_nchannels options) + 1 <? opt_nchannels options) = false).
  { apply Z.ltb_ge. unfold clamp.
    destruct (Z.ltb_spec (nchannels spec - firstchannel options) 0); [lia|].
    destruct (Z.ltb_spec (opt_nchannels options)
                (nchannels spec - firstchannel options)); lia. }
  rewrite Hno. reflexivity.
Qed.

(** C10. The alpha reference is not nulled when the file lacks the alpha
    channel.  One channel and an alpha output are asked of "checker.tx",
    which has one channel, so the alpha channel (channel 1) is not in the
    file.  [texture] returns with [actualchannels = 1] stored in the options
    and the alpha reference still set, where the options object as the
    specification leaves it has a null reference; the lookup has then written
    to [alpha[0]] the float after the texel's only channel, which is the next
    texel of the tile (1, where the texel read is 0 and the fill is 0).  A
    second call handed the same options object finds the reference still set
    and writes that float again. *)
Theorem texture_keeps_alpha_the_file_lacks :
  let options := Scenario.options 1 WrapBlack WrapBlack F32.zero (Some 1) in
  let options' := set_actualchannels 1 options in
  let mem' := mkMem [F32.zero; F32.half] [F32.one] in
  texture 0 Scenario.disk TextureSystemImpl_new "checker.tx" options [true] 0 0
    (Scenario.uniform F32.half) (Scenario.uniform F32.half)
    (mkMem [F32.one; F32.one] [F32.zero])
  = Ok (Scenario.checker_sys1, options', mem')
  /\ nchannels Scenario.checker_spec = 1
  /\ file_lacks_alpha Scenario.checker_spec options = true
  /\ alpha options' = Some 1
  /\ alpha (options_left_by_texture Scenario.checker_tf Scenario.checker_spec options)
     = None
  /\ options' <> options_left_by_texture Scenario.checker_tf Scenario.checker_spec options
  /\ tile_texels Scenario.checker_tile !! 0%nat = Some F32.zero
  /\ tile_texels Scenario.checker_tile !! 1%nat = Some F32.one
  /\ texture 0 Scenario.disk Scenario.checker_sys1 "checker.tx" options' [true] 0 0
       (Scenario.uniform F32.half) (Scenario.uniform F32.half)
       (mkMem [F32.zero; F32.half] [F32.zero])
     = Ok (Scenario.checker_sys1, options', mem').
Proof.
  intros options options' mem'.
  assert (Hfind : find_texturefile 0 Scenario.disk TextureSystemImpl_new "checker.tx"
                  = Ok Scenario.checker_sys) by (vm_compute; reflexivity).
  assert (Hcall : texture 0 Scenario.disk TextureSystemImpl_new "checker.tx" options
                    [true] 0 0 (Scenario.uniform F32.half) (Scenario.uniform F32.half)
                    (mkMem [F32.one; F32.one] [F32.zero])
                  = Ok (Scenario.checker_sys1, options', mem'))
    by (vm_compute; reflexivity).
  destruct (texture_alpha_kept 0 Scenario.disk TextureSystemImpl_new
              Scenario.checker_sys Scenario.checker_sys1 "checker.tx" options options'
              [true] 0 0 (Scenario.uniform F32.half) (Scenario.uniform F32.half)
              (mkMem [F32.one; F32.one] [F32.zero]) mem' Scenario.checker_tf
              Scenario.checker_spec [] 1 Hfind eq_refl eq_refl eq_refl eq_refl eq_refl
              ltac:(cbn; lia) Hcall) as [Hkept Hnull].
  split; [exact Hcall|]. split; [reflexivity|]. split; [reflexivity|].
  split; [exact Hkept|]. split; [exact Hnull|].
  split; [intros E; rewrite <- E in Hnull; rewrite Hkept in Hnull; discriminate|].
  split; [reflexivity|]. split; [reflexivity|].
  vm_compute. reflexivity.
Qed.

(** C3. A missing file, the second of two lanes active ([firstactive =
    lastactive = 1]), one channel, fill 0.25: the fill is stored in
    [result[0]], the slot of lane 0, and [result[1]], the slot of the active
    lane, is left as it was.  The loop starts the [result] pointer at the
    array's base for lane [firstactive] instead of at [firstactive *
    nchannels]. *)
Theorem texture_missing_file_fills_wrong_slot :
  exists sys',
    texture 0 Scenario.disk TextureSystemImpl_new "does-not-exist.tx"
      (Scenario.options 1 WrapDefault WrapDefault (F32.lit 1 4) None)
      [false; true] 1 1
      (Scenario.uniform F32.zero) (Scenario.uniform F32.zero)
      (mkMem [F32.zero; F32.zero] [])
    = Ok (sys', Scenario.options 1 WrapDefault WrapDefault (F32.lit 1 4) None,
          mkMem [F32.lit 1 4; F32.zero] [])
    /\ m_broken <$> (m_texturefiles sys' !! "does-not-exist.tx"%string) = Some true.
Proof.
  eexists. split; [vm_compute; reflexivity|]. reflexivity.
Qed.

(** * Further properties *)

(** ** Wrap mode names *)

(** X1. [decode_wrapmode] is an exact, case-sensitive match: it yields a wrap
    other than the default for the four names "black", "clamp", "periodic"
    and "mirror" only, every other string decodes to [WrapDefault], and the
    sentinel [WrapLast] is never produced. *)
Theorem decode_wrapmode_names (name : string) :
  (decode_wrapmode name = WrapBlack <-> name = "black"%string)
  /\ (decode_wrapmode name = WrapClamp <-> name = "clamp"%string)
  /\ (decode_wrapmode name = WrapPeriodic <-> name = "periodic"%string)
  /\ (decode_wrapmode name = WrapMirror <-> name = "mirror"%string)
  /\ decode_wrapmode name <> WrapLast.
Proof.
  unfold decode_wrapmode, wrap_type_name. cbn [lookup_name].
  destruct (String.eqb_spec name "default"); [subst; cbv; repeat split; congruence|].
  destruct (String.eqb_spec name "black"); [subst; cbv; repeat split; congruence|].
  destruct (String.eqb_spec name "clamp"); [subst; cbv; repeat split; congruence|].
  destruct (String.eqb_spec name "periodic"); [subst; cbv; repeat split; congruence|].
  destruct (String.eqb_spec name "mirror"); [subst; cbv; repeat split; congruence|].
  repeat split; congruence.
Qed.

Lemma split_comma_no_comma (a : string) :
  has_comma a = false -> split_comma a = (a, None).
Proof.
  induction a as [|c a IH]; cbn [has_comma split_comma]; [reflexivity|].
  destruct (Ascii.eqb c ","); [discriminate|]. cbn [orb].
  intros H. rewrite (IH H). reflexivity.
Qed.

Lemma split_comma_first (a b : string) :
  has_comma a = false ->
  split_comma (a +:+ String "," b) = (a, Some b).
Proof.
  induction a as [|c a IH]; cbn [has_comma].
  - intros _. reflexivity.
  - change (String c a +:+ String "," b) with (String c (a +:+ String "," b)).
    cbn [split_comma].
    destruct (Ascii.eqb c ","); [discriminate|]. cbn [orb].
    intros H. rewrite (IH H). reflexivity.
Qed.

(** X2. [parse_wrapmodes] splits at the first comma: "s,t" gives the wrap of
    [s] for [s] and the wrap of everything after the comma for [t], and a
    string without a comma gives its wrap for both. *)
Theorem parse_wrapmodes_splits_at_first_comma (a b : string) :
  has_comma a = false ->
  parse_wrapmodes (a +:+ String "," b) = (decode_wrapmode a, decode_wrapmode b)
  /\ parse_wrapmodes a = (decode_wrapmode a, decode_wrapmode a).
Proof.
  intros H. unfold parse_wrapmodes.
  rewrite (split_comma_first a b H), (split_comma_no_comma a H). split; reflexivity.
Qed.

Lemma parse_wrapmodes_splits_at_first_comma_witness :
  has_comma "periodic" = false
  /\ parse_wrapmodes "periodic,clamp,x" = (WrapPeriodic, WrapDefault)
  /\ parse_wrapmodes "periodic" = (WrapPeriodic, WrapPeriodic).
Proof.
  split; [reflexivity|].
  exact (parse_wrapmodes_splits_at_first_comma "periodic" "clamp,x" eq_refl).
Defined.

(** ** The life of a file *)

(** X3. [release] is a two-phase closer: whatever the state of the file, two
    calls in a row leave it closed and unused, with the count of open files
    lowered by one exactly when the file was open; the second call has
    nothing more to do on a third, and neither touches the broken flag or
    the metadata. *)
Theorem release_twice_closes (tf : TextureFile) (n : Z) :
  let r1 := TextureFile_release tf n in
  let r2 := TextureFile_release r1.1 r1.2 in
  m_input r2.1 = None
  /\ m_used r2.1 = false
  /\ r2.2 = n - readers tf
  /\ TextureFile_release r2.1 r2.2 = r2
  /\ m_broken r2.1 = m_broken tf
  /\ metadata r2.1 = metadata tf.
Proof.
  unfold TextureFile_release, readers, opened, metadata.
  destruct tf as [fn used broken [inp|] specs fmt sw tw cube yup];
    destruct used; cbn; repeat split; lia.
Qed.

(** [open] on the count of open files and the metadata. *)
Lemma open_readers disk tf n tf' n' :
  TextureFile_open disk tf n = Ok (tf', n') ->
  n' - readers tf' = n - readers tf.
Proof.
  intros H. apply open_cases in H
    as [[-> ->]|[(_ & Hi & _ & Hi' & ->)|(_ & Hi & _ & Ho' & ->)]];
    unfold readers, opened in *; [reflexivity| |].
  - rewrite Hi, Hi'. reflexivity.
  - rewrite Hi. destruct (m_input tf'); [lia|discriminate].
Qed.

Lemma release_readers tf n :
  (TextureFile_release tf n).2 - readers (TextureFile_release tf n).1
  = n - readers tf.
Proof.
  unfold TextureFile_release, readers, opened.
  destruct tf as [fn used broken [inp|] specs fmt sw tw cube yup];
    destruct used; cbn; lia.
Qed.

Lemma open_metadata disk tf n tf' n' :
  TextureFile_open disk tf n = Ok (tf', n') ->
  m_spec tf <> [] ->
  metadata tf' = metadata tf.
Proof.
  unfold TextureFile_open. intros H Hspec.
  destruct (opened tf); [injection H as <- <-; reflexivity|].
  destruct (m_broken tf); [injection H as <- <-; reflexivity|].
  destruct (ImageInput_create disk (m_filename tf)) as [inp0|];
    [|injection H as <- <-; reflexivity].
  destruct (ImageInput_open inp0) as [[inp tempspec]|];
    [|injection H as <- <-; reflexivity].
  cbn [use set_input set_used m_spec] in H.
  destruct (m_spec tf) as [|s0 specs0] eqn:Hs; [congruence|].
  injection H as <- <-. unfold metadata. cbn. rewrite Hs. reflexivity.
Qed.

Lemma run_op_readers op tf n tf' n' :
  run_op op (tf, n) = Ok (tf', n') ->
  n' - readers tf' = n - readers tf.
Proof.
  destruct op as [disk|disk level x y z|]; cbn [run_op fst snd].
  - apply open_readers.
  - unfold TextureFile_read_tile.
    destruct (TextureFile_open disk tf n) as [[tf1 n1]|f] eqn:Hopen;
      cbn [mbind result_bind]; [|discriminate].
    destruct (m_input tf1) as [inp|] eqn:Hin; [|discriminate].
    cbn [mbind result_bind]. intros [= <- <-].
    pose proof (open_readers _ _ _ _ _ Hopen) as Hr.
    unfold readers, opened in *. cbn [m_input set_input]. rewrite Hin in Hr. exact Hr.
  - intros [= H]. pose proof (release_readers tf n) as Hr. rewrite H in Hr. exact Hr.
Qed.

Lemma run_op_metadata op tf n tf' n' :
  run_op op (tf, n) = Ok (tf', n') ->
  m_spec tf <> [] ->
  metadata tf' = metadata tf.
Proof.
  destruct op as [disk|disk level x y z|]; cbn [run_op fst snd].
  - apply open_metadata.
  - unfold TextureFile_read_tile.
    destruct (TextureFile_open disk tf n) as [[tf1 n1]|f] eqn:Hopen;
      cbn [mbind result_bind]; [|discriminate].
    destruct (m_input tf1) as [inp|] eqn:Hin; [|discriminate].
    cbn [mbind result_bind]. intros [= <- <-] Hs.
    rewrite <- (open_metadata _ _ _ _ _ Hopen Hs). reflexivity.
  - intros [= H] _. assert (Htf : tf' = (TextureFile_release tf n).1) by (rewrite H; reflexivity).
    subst tf'. unfold TextureFile_release, metadata.
    destruct (m_used tf); [reflexivity|]. destruct (opened tf); reflexivity.
Qed.

(** X4. The count of open files follows the readers held: along every
    sequence of [open], [read_tile] and [release] calls on a file that
    returns, the count changes by exactly the change in the number of readers
    the file holds (one when open, none when closed). *)
Theorem open_files_counts_readers
    (ops : list FileOp) (tf tf' : TextureFile) (n n' : Z) :
  run_ops ops (tf, n) = Ok (tf', n') ->
  n' - readers tf' = n - readers tf.
Proof.
  revert tf n. induction ops as [|op ops IH]; intros tf n; cbn [run_ops].
  - intros [= <- <-]. reflexivity.
  - destruct (run_op op (tf, n)) as [[tf1 n1]|f] eqn:Hop; cbn [mbind result_bind];
      [|discriminate].
    intros Hrest. apply run_op_readers in Hop. apply IH in Hrest. lia.
Qed.

Lemma open_files_counts_readers_witness :
  let closed :=
    mkTextureFile "checker.tx" false false None [Scenario.checker_spec]
      TexFormatTexture WrapBlack WrapBlack CubeUnknown false in
  let ops := [OpOpen Scenario.disk; OpReadTile Scenario.disk 0 0 0 0;
              OpRelease; OpRelease] in
  run_ops ops (TextureFile_new "checker.tx", 0) = Ok (closed, 0)
  /\ 0 - readers closed = 0 - readers (TextureFile_new "checker.tx").
Proof.
  intros closed ops.
  assert (H : run_ops ops (TextureFile_new "checker.tx", 0) = Ok (closed, 0))
    by (vm_compute; reflexivity).
  split; [exact H|].
  exact (open_files_counts_readers ops (TextureFile_new "checker.tx") closed 0 0 H).
Defined.

(** X5. The metadata of a file is fixed by its first successful open: once
    the list of subimage formats is filled, no sequence of [open],
    [read_tile] and [release] calls changes the name, the formats, the texture
    format, the wraps, the cube layout or the y-up flag: a file closed by the
    sweep and reopened is not parsed again. *)
Theorem metadata_fixed_after_first_open
    (ops : list FileOp) (tf tf' : TextureFile) (n n' : Z) :
  m_spec tf <> [] ->
  run_ops ops (tf, n) = Ok (tf', n') ->
  metadata tf' = metadata tf.
Proof.
  revert tf n. induction ops as [|op ops IH]; intros tf n Hs; cbn [run_ops].
  - intros [= <- <-]. reflexivity.
  - destruct (run_op op (tf, n)) as [[tf1 n1]|f] eqn:Hop; cbn [mbind result_bind];
      [|discriminate].
    intros Hrest. pose proof (run_op_metadata _ _ _ _ _ Hop Hs) as H1.
    assert (Hs1 : m_spec tf1 <> []) by (unfold metadata in H1; congruence).
    rewrite <- H1. exact (IH tf1 n1 Hs1 Hrest).
Qed.

Lemma metadata_fixed_after_first_open_witness :
  let closed :=
    mkTextureFile "checker.tx" false false None [Scenario.checker_spec]
      TexFormatTexture WrapBlack WrapBlack CubeUnknown false in
  let ops := [OpRelease; OpOpen Scenario.disk; OpRelease; OpRelease] in
  m_spec Scenario.checker_tf <> []
  /\ run_ops ops (Scenario.checker_tf, 1) = Ok (closed, 0)
  /\ metadata closed = metadata Scenario.checker_tf.
Proof.
  intros closed ops.
  assert (Hs : m_spec Scenario.checker_tf <> []) by discriminate.
  assert (H : run_ops ops (Scenario.checker_tf, 1) = Ok (closed, 0))
    by (vm_compute; reflexivity).
  split; [exact Hs|]. split; [exact H|].
  exact (metadata_fixed_after_first_open ops _ _ 1 0 Hs H).
Defined.

(** The subimage loop of [open], when it returns: every subimage of the file
    has been collected, and all have the channel count of the first. *)
Lemma read_subimages_inv (n : nat) :
  forall (inp inp' : ImageInput) (i : nat) (tempspec spec0 : ImageIOFormatSpec)
         (rest specs : list ImageIOFormatSpec),
  img_subimages (in_image inp) = spec0 :: rest ->
  (spec0 :: rest) !! i = Some tempspec ->
  Forall (fun s => nchannels s = nchannels spec0) (take i (spec0 :: rest)) ->
  read_subimages n inp (Z.of_nat i) tempspec (take i (spec0 :: rest)) = Ok (inp', specs) ->
  specs = spec0 :: rest
  /\ Forall (fun s => nchannels s = nchannels spec0) (spec0 :: rest)
  /\ in_image inp' = in_image inp.
Proof.
  induction n as [|n IH]; intros inp inp' i tempspec spec0 rest specs Himg Hi Hall;
    cbn -[Z.add take lookup];
    rewrite <- (take_S_r _ _ _ Hi); cbn [take];
    (destruct (Z.eqb_spec (nchannels tempspec) (nchannels spec0)) as [Hch|Hch];
       cbn [negb]; [|discriminate]);
    unfold ImageInput_seek_subimage; rewrite Himg;
    (destruct (Z.leb_spec 0 (Z.of_nat i + 1)); [|lia]);
    replace (Z.to_nat (Z.of_nat i + 1)) with (S i) by lia;
    (assert (Hall' : Forall (fun s => nchannels s = nchannels spec0)
                       (take (S i) (spec0 :: rest)))
       by (rewrite (take_S_r _ _ _ Hi); apply Forall_app; split;
           [exact Hall | repeat constructor; exact Hch]));
    destruct ((spec0 :: rest) !! S i) as [spec'|] eqn:Hnext.
  - discriminate.
  - intros [= <- <-]. apply lookup_ge_None in Hnext.
    change (spec0 :: take i rest) with (take (S i) (spec0 :: rest)) in *.
    rewrite take_ge in * by lia. auto.
  - replace (Z.of_nat i + 1) with (Z.of_nat (S i)) by lia.
    change (spec0 :: take i rest) with (take (S i) (spec0 :: rest)).
    intros Hrec.
    destruct (IH (mkImageInput (in_image inp) (Z.of_nat (S i))) inp' (S i) spec' spec0
                rest specs Himg Hnext Hall' Hrec) as (H1 & H2 & H3).
    auto.
  - intros [= <- <-]. apply lookup_ge_None in Hnext.
    change (spec0 :: take i rest) with (take (S i) (spec0 :: rest)) in *.
    rewrite take_ge in * by lia. auto.
Qed.

(** X6. What the constructor leaves: either the file is broken (no reader
    could be created or opened), holds no reader and no format, and the count
    of open files is untouched; or it is open, the count has grown by one, the
    format of every subimage of the file has been read, and (the [ASSERT] of
    the loop) all subimages have the channel count of the first. *)
Theorem ctor_reads_every_level
    (disk : Disk) (filename : string) (n n' : Z) (tf : TextureFile) :
  TextureFile_ctor disk filename n = Ok (tf, n') ->
  (m_broken tf = true /\ m_input tf = None /\ m_spec tf = [] /\ n' = n)
  \/ (m_broken tf = false /\ opened tf = true /\ n' = n + 1
      /\ exists img spec0 rest,
           disk !! filename = Some img
           /\ img_subimages img = spec0 :: rest
           /\ m_spec tf = spec0 :: rest
           /\ Forall (fun s => nchannels s = nchannels spec0) rest).
Proof.
  unfold TextureFile_ctor, TextureFile_open, ImageInput_create, ImageInput_open.
  cbn [opened TextureFile_new m_input m_broken m_filename].
  destruct (disk !! filename) as [img|] eqn:Hd.
  2:{ intros [= <- <-]. left. cbn. auto. }
  cbn [in_image]. destruct (img_opens img).
  2:{ intros [= <- <-]. left. cbn. auto. }
  destruct (img_subimages img) as [|spec0 rest] eqn:Hsub.
  { intros [= <- <-]. left. cbn. auto. }
  cbn [use set_input set_used m_spec in_image]. rewrite Hsub.
  destruct (read_subimages _ _ 0 spec0 []) as [[inp' specs]|f] eqn:Hr;
    cbn [mbind result_bind]; [|discriminate].
  destruct (read_subimages_inv _ (mkImageInput img 0) inp' 0 spec0 spec0 rest specs
              Hsub eq_refl (Forall_nil_2 _) Hr) as (-> & Hall & _).
  intros [= <- <-]. right.
  rewrite first_open_fields_broken. unfold opened. rewrite first_open_fields_input.
  cbn [m_broken set_used set_input TextureFile_new].
  split; [reflexivity|]. split; [reflexivity|]. split; [reflexivity|].
  exists img, spec0, rest.
  split; [reflexivity|]. split; [exact Hsub|].
  split; [|apply Forall_cons in Hall as [_ Hall]; exact Hall].
  unfold first_open_fields.
  destruct (match find_attribute spec0 "wrapmodes" with
            | Some p => _ | None => _ end) as [sw tw].
  reflexivity.
Qed.

Lemma ctor_reads_every_level_witness :
  TextureFile_ctor Scenario.disk "checker.tx" 0 = Ok (Scenario.checker_tf, 1)
  /\ m_spec Scenario.checker_tf = img_subimages Scenario.checker.
Proof.
  assert (H : TextureFile_ctor Scenario.disk "checker.tx" 0
              = Ok (Scenario.checker_tf, 1)) by (vm_compute; reflexivity).
  split; [exact H|].
  destruct (ctor_reads_every_level Scenario.disk "checker.tx" 0 1
              Scenario.checker_tf H) as [(Hb & _)|(_ & _ & _ & img & s0 & r & _)];
    [discriminate Hb|reflexivity].
Defined.

(** A subimage whose channel count differs from the first makes the loop of
    [open] fail its [ASSERT]. *)
Lemma read_subimages_mismatch (k : nat) :
  forall (n : nat) (inp : ImageInput) (i : nat) (tempspec spec0 : ImageIOFormatSpec)
         (rest : list ImageIOFormatSpec),
  img_subimages (in_image inp) = spec0 :: rest ->
  (spec0 :: rest) !! i = Some tempspec ->
  length rest = (i + k)%nat ->
  (k <= n)%nat ->
  Exists (fun s => nchannels s <> nchannels spec0) (drop i (spec0 :: rest)) ->
  read_subimages n inp (Z.of_nat i) tempspec (take i (spec0 :: rest))
  = Fault AssertFailed.
Proof.
  induction k as [|k IH]; intros n inp i tempspec spec0 rest Himg Hi Hlen Hn Hex;
    rewrite (drop_S _ _ _ Hi) in Hex; apply Exists_cons in Hex as [Hbad|Hex].
  - destruct n; cbn -[Z.add take lookup]; rewrite <- (take_S_r _ _ _ Hi); cbn [take];
      destruct (Z.eqb_spec (nchannels tempspec) (nchannels spec0)); try reflexivity;
      contradiction.
  - rewrite drop_ge in Hex by (simpl; lia). inversion Hex.
  - destruct n; cbn -[Z.add take lookup]; rewrite <- (take_S_r _ _ _ Hi); cbn [take];
      destruct (Z.eqb_spec (nchannels tempspec) (nchannels spec0)); try reflexivity;
      contradiction.
  - destruct n as [|n]; [lia|].
    cbn -[Z.add take lookup]. rewrite <- (take_S_r _ _ _ Hi); cbn [take].
    destruct (Z.eqb_spec (nchannels tempspec) (nchannels spec0)); [|reflexivity].
    cbn [negb]. unfold ImageInput_seek_subimage. rewrite Himg.
    destruct (Z.leb_spec 0 (Z.of_nat i + 1)); [|lia].
    replace (Z.to_nat (Z.of_nat i + 1)) with (S i) by lia.
    destruct ((spec0 :: rest) !! S i) as [spec'|] eqn:Hnext.
    2:{ apply lookup_ge_None in Hnext. simpl in Hnext. lia. }
    replace (Z.of_nat i + 1) with (Z.of_nat (S i)) by lia.
    apply (IH n (mkImageInput (in_image inp) (Z.of_nat (S i))) (S i) spec' spec0 rest);
      auto; lia.
Qed.

(** X7. The channel-count check of [open] is enforced by abort: constructing
    a [TextureFile] for a file that opens but has a subimage whose channel
    count differs from that of the first subimage fails the [ASSERT]; it does
    not mark the file broken. *)
Theorem ctor_mixed_channels_aborts
    (disk : Disk) (filename : string) (n : Z) (img : ImageFile)
    (spec0 : ImageIOFormatSpec) (rest : list ImageIOFormatSpec) :
  disk !! filename = Some img ->
  img_opens img = true ->
  img_subimages img = spec0 :: rest ->
  Exists (fun s => nchannels s <> nchannels spec0) rest ->
  TextureFile_ctor disk filename n = Fault AssertFailed.
Proof.
  intros Hd Ho Hsub Hex.
  unfold TextureFile_ctor, TextureFile_open, ImageInput_create, ImageInput_open.
  cbn [opened TextureFile_new m_input m_broken m_filename].
  rewrite Hd. cbn [in_image]. rewrite Ho, Hsub.
  cbn [use set_input set_used m_spec in_image]. rewrite Hsub.
  assert (Hr : read_subimages (length (spec0 :: rest)) (mkImageInput img 0)
                 0 spec0 [] = Fault AssertFailed).
  { apply (read_subimages_mismatch (length rest) (length (spec0 :: rest))
             (mkImageInput img 0) 0%nat spec0 spec0 rest Hsub eq_refl eq_refl);
      [simpl; lia|].
    cbn [drop]. apply Exists_cons. right. exact Hex. }
  rewrite Hr. reflexivity.
Qed.

Lemma ctor_mixed_channels_aborts_witness :
  TextureFile_ctor (AMap [("mixed.tx"%string, Scenario.mixed)]) "mixed.tx" 0
  = Fault AssertFailed.
Proof.
  apply (ctor_mixed_channels_aborts _ "mixed.tx" 0 Scenario.mixed
           Scenario.checker_spec [mkSpec 1 1 1 1 1 1 1 3 []]);
    [vm_compute; reflexivity | reflexivity | reflexivity |].
  apply Exists_cons. left. vm_compute. discriminate.
Defined.

(** The entry the constructor builds for a file that opens. *)
Lemma ctor_first_open disk filename n img spec0 rest tf n' :
  disk !! filename = Some img ->
  img_opens img = true ->
  img_subimages img = spec0 :: rest ->
  TextureFile_ctor disk filename n = Ok (tf, n') ->
  n' = n + 1
  /\ exists inp',
       tf = first_open_fields
              (use (set_input (Some (mkImageInput img 0)) (TextureFile_new filename)))
              inp' (spec0 :: rest) spec0
       /\ in_image inp' = img.
Proof.
  intros Hd Ho Hsub.
  unfold TextureFile_ctor, TextureFile_open, ImageInput_create, ImageInput_open.
  cbn [opened TextureFile_new m_input m_broken m_filename].
  rewrite Hd. cbn [in_image]. rewrite Ho, Hsub.
  cbn [use set_input set_used m_spec in_image]. rewrite Hsub.
  destruct (read_subimages _ _ 0 spec0 []) as [[inp' specs]|f] eqn:Hr;
    cbn [mbind result_bind]; [|discriminate].
  destruct (read_subimages_inv _ (mkImageInput img 0) inp' 0 spec0 spec0 rest specs
              Hsub eq_refl (Forall_nil_2 _) Hr) as (-> & _ & Himg).
  intros [= <- <-]. split; [reflexivity|]. exists inp'. split; [reflexivity|exact Himg].
Qed.

(** X26. The fallback of the format parse: when the first subimage has no
    "textureformat" attribute, or one that is not a single string, or one
    whose string is none of the eight names of [texture_format_name], a file
    that opens is a plain texture: the constructor leaves
    [TexFormatTexture], the cube layout [CubeUnknown] and [y_up] false,
    whatever the reader's format name and the image sizes are. *)
Theorem ctor_unknown_format_is_plain_texture
    (disk : Disk) (filename : string) (n n' : Z) (img : ImageFile)
    (spec0 : ImageIOFormatSpec) (rest : list ImageIOFormatSpec) (tf : TextureFile) :
  disk !! filename = Some img ->
  img_opens img = true ->
  img_subimages img = spec0 :: rest ->
  (forall p, find_attribute spec0 "textureformat" = Some p ->
             p_type p = PT_STRING -> p_nvalues p = 1 ->
             lookup_name texture_format_name (cstring (p_data p)) = None) ->
  TextureFile_ctor disk filename n = Ok (tf, n') ->
  m_broken tf = false
  /\ m_texformat tf = TexFormatTexture
  /\ m_cubelayout tf = CubeUnknown
  /\ m_y_up tf = false.
Proof.
  intros Hd Ho Hsub Hfmt Hc.
  destruct (ctor_first_open _ _ _ _ _ _ _ _ Hd Ho Hsub Hc) as (_ & inp' & -> & _).
  split; [rewrite first_open_fields_broken; reflexivity|].
  unfold first_open_fields.
  assert (Hplain :
    match find_attribute spec0 "textureformat" with
    | Some p =>
        if bool_decide (p_type p = PT_STRING) && (p_nvalues p =? 1) then
          match lookup_name texture_format_name (cstring (p_data p)) with
          | Some f => f
          | None => TexFormatTexture
          end
        else TexFormatTexture
    | None => TexFormatTexture
    end = TexFormatTexture).
  { destruct (find_attribute spec0 "textureformat") as [p|]; [|reflexivity].
    destruct (bool_decide (p_type p = PT_STRING)) eqn:Ht; [|reflexivity].
    destruct (Z.eqb_spec (p_nvalues p) 1) as [Hn|]; [|reflexivity].
    cbn [andb]. apply bool_decide_eq_true_1 in Ht.
    rewrite (Hfmt p eq_refl Ht Hn). reflexivity. }
  rewrite Hplain.
  destruct (match find_attribute spec0 "wrapmodes" with
            | Some p => _ | None => _ end) as [sw tw].
  cbn. auto.
Qed.

Lemma ctor_unknown_format_is_plain_texture_witness :
  TextureFile_ctor Scenario.disk "checker.tx" 0 = Ok (Scenario.checker_tf, 1)
  /\ m_texformat Scenario.checker_tf = TexFormatTexture.
Proof.
  assert (H : TextureFile_ctor Scenario.disk "checker.tx" 0
              = Ok (Scenario.checker_tf, 1)) by (vm_compute; reflexivity).
  split; [exact H|].
  refine (proj1 (proj2 (ctor_unknown_format_is_plain_texture Scenario.disk "checker.tx"
                          0 1 Scenario.checker Scenario.checker_spec []
                          Scenario.checker_tf eq_refl eq_refl eq_refl _ H))).
  intros p Hp. vm_compute in Hp. discriminate Hp.
Defined.

(** ** The registry of files *)

Section amap_more.
Context {K V : Type} `{EqDecision K}.

Lemma amap_insert_same (m : amap K V) k v : m !! k = Some v -> <[k := v]> m = m.
Proof.
  destruct m as [l]. unfold lookup, insert, amap_lookup, amap_insert. cbn [amap_car].
  intros H. f_equal. induction l as [|[k' v'] l IH]; cbn [alist_insert alist_lookup] in *;
    [discriminate|].
  destruct (decide (k = k')) as [<-|Hne]; [congruence|]. rewrite (IH H). reflexivity.
Qed.

Lemma amap_lookup_insert_is_Some (m : amap K V) k v k' :
  is_Some (m !! k') -> is_Some (<[k := v]> m !! k').
Proof.
  intros H. destruct (decide (k = k')) as [<-|Hne].
  - rewrite amap_lookup_insert_eq. eauto.
  - rewrite amap_lookup_insert_ne by exact Hne. exact H.
Qed.
End amap_more.

Lemma open_entries_insert files k tf :
  open_entries (<[k := tf]> files)
  = open_entries files
    - match files !! k with Some tf0 => readers tf0 | None => 0 end
    + readers tf.
Proof.
  destruct files as [l]. unfold open_entries, lookup, insert, amap_lookup, amap_insert.
  cbn [amap_car].
  induction l as [|[k' v'] l IH]; cbn [alist_insert alist_lookup foldr snd]; [lia|].
  destruct (decide (k = k')) as [<-|Hne]; cbn [foldr snd]; lia.
Qed.

Lemma release_same_file tf n : same_file tf (TextureFile_release tf n).1.
Proof.
  unfold same_file, TextureFile_release, metadata.
  destruct (m_used tf); [split; reflexivity|]. destruct (opened tf); split; reflexivity.
Qed.

Lemma read_tile_readers disk tf n level x y z tf' n' r :
  TextureFile_read_tile disk tf n level x y z = Ok (tf', n', r) ->
  n' - readers tf' = n - readers tf.
Proof.
  intros H. apply (run_op_readers (OpReadTile disk level x y z)).
  cbn [run_op fst snd]. rewrite H. reflexivity.
Qed.

(** What the sweep keeps: the tile cache and the limits, the agreement of the
    counter with the registry, the names registered, and of each entry
    everything but its used flag and its reader. *)
Lemma check_max_files_keeps fuel : forall sys sys',
  check_max_files fuel sys = Ok sys' ->
  tilecache sys' = tilecache sys
  /\ m_max_memory_MB sys' = m_max_memory_MB sys
  /\ (counted sys -> counted sys')
  /\ (forall g, m_texturefiles sys !! g = None -> m_texturefiles sys' !! g = None)
  /\ (forall g tf, m_texturefiles sys !! g = Some tf ->
        exists tf', m_texturefiles sys' !! g = Some tf' /\ same_file tf tf').
Proof.
  induction fuel as [|fuel IH]; intros sys sys'; cbn [check_max_files];
    destruct (Z.leb_spec (m_max_open_files sys) (m_open_files sys)) as [Hle|Hlt];
    try discriminate;
    try (intros [= <-]; repeat split; auto; intros g tf Hg; exists tf;
         repeat split; auto).
  destruct (match m_file_sweep sys with
            | Some k => Some k
            | None => files_begin (m_texturefiles sys)
            end) as [k|]; [|discriminate].
  destruct (m_texturefiles sys !! k) as [tf0|] eqn:Hk; [|discriminate].
  pose proof (release_readers tf0 (m_open_files sys)) as Hrd.
  pose proof (release_same_file tf0 (m_open_files sys)) as Hsame.
  destruct (TextureFile_release tf0 (m_open_files sys)) as [tf1 n1].
  cbn [fst snd] in Hrd, Hsame.
  intros Hrec. apply IH in Hrec as (Hc & Hm & Hcnt & Hnone & Hsome).
  cbn [tilecache m_max_memory_MB set_files set_file_sweep m_texturefiles] in *.
  split; [exact Hc|]. split; [exact Hm|]. split; [|split].
  - intros Hcounted. apply Hcnt. unfold counted in *.
    cbn [m_open_files m_texturefiles set_files].
    rewrite open_entries_insert, Hk. lia.
  - intros g Hg. apply Hnone. rewrite amap_lookup_insert_ne; [exact Hg|congruence].
  - intros g tf Hg. destruct (decide (k = g)) as [<-|Hne].
    + destruct (Hsome k tf1 (amap_lookup_insert_eq _ _ _)) as (tf' & Hl & Hm1 & Hb1).
      exists tf'. split; [exact Hl|].
      assert (tf = tf0) by congruence. subst tf.
      destruct Hsame as [Hm0 Hb0]. split; congruence.
    + apply Hsome. rewrite amap_lookup_insert_ne by exact Hne. exact Hg.
Qed.

(** X12. The sweep does return when closing the entry it stands on is enough.
    With the count at the maximum and the cursor on (or, at [end ()], the
    registry starting with) a file that is used and open, two turns suffice:
    the first clears the used flag, the second closes the file, and the
    cursor is left on that entry. *)
Theorem check_max_files_closes_first
    (fuel : nat) (sys : TextureSystemImpl) (k : string) (tf : TextureFile)
    (inp : ImageInput) :
  m_open_files sys = m_max_open_files sys ->
  match m_file_sweep sys with
  | None => files_begin (m_texturefiles sys)
  | Some k => Some k
  end = Some k ->
  m_texturefiles sys !! k = Some tf ->
  m_used tf = true ->
  m_input tf = Some inp ->
  check_max_files (S (S fuel)) sys
  = Ok (set_files
          (<[k := set_used false (set_input None tf)]> (m_texturefiles sys))
          (m_open_files sys - 1) (set_file_sweep (Some k) sys)).
Proof.
  intros Heq Hk Htf Hu Hi.
  assert (Hins : forall (m : amap string TextureFile) a b,
             <[k := a]> (<[k := b]> m) = <[k := a]> m).
  { clear. intros [l] a b. unfold insert, amap_insert. cbn [amap_car]. f_equal.
    induction l as [|[k' v'] l IH]; cbn [alist_insert].
    - rewrite decide_True by reflexivity. reflexivity.
    - destruct (decide (k = k')) as [<-|Hne]; cbn [alist_insert].
      + rewrite decide_True by reflexivity. reflexivity.
      + rewrite decide_False by exact Hne. rewrite IH. reflexivity. }
  cbn [check_max_files].
  destruct (Z.leb_spec (m_max_open_files sys) (m_open_files sys)); [|lia].
  rewrite Hk, Htf. unfold TextureFile_release at 1. rewrite Hu.
  cbn [m_open_files m_max_open_files set_files set_file_sweep m_file_sweep
       m_texturefiles].
  destruct (Z.leb_spec (m_max_open_files sys) (m_open_files sys)); [|lia].
  rewrite amap_lookup_insert_eq.
  unfold TextureFile_release, opened. cbn [m_used set_used m_input]. rewrite Hi.
  rewrite Hins.
  rewrite check_max_files_below by (cbn; lia).
  reflexivity.
Qed.

Lemma check_max_files_closes_first_witness :
  check_max_files 2 Scenario.single_first = Ok Scenario.single_closed.
Proof.
  exact (check_max_files_closes_first 0 Scenario.single_first "checker.tx"
           Scenario.checker_tf (mkImageInput Scenario.checker 0)
           eq_refl eq_refl eq_refl eq_refl eq_refl).
Defined.

(** X13. A file that could not be opened is remembered as broken and never
    tried again: after the first reference to a file that is not on the disk,
    the registry holds a broken entry without reader for it, and every later
    reference returns at once and changes nothing, whatever is on the disk by
    then. *)
Theorem find_texturefile_missing_is_remembered
    (fuel : nat) (disk : Disk) (sys sys' : TextureSystemImpl) (filename : string) :
  m_texturefiles sys !! filename = None ->
  disk !! filename = None ->
  find_texturefile fuel disk sys filename = Ok sys' ->
  (exists tf, m_texturefiles sys' !! filename = Some tf
              /\ m_broken tf = true /\ m_input tf = None /\ m_spec tf = [])
  /\ forall fuel' disk', find_texturefile fuel' disk' sys' filename = Ok sys'.
Proof.
  intros Hf Hd. unfold find_texturefile at 1. rewrite Hf.
  destruct (check_max_files fuel sys) as [sys1|f] eqn:Hchk; [|discriminate].
  cbn [mbind result_bind].
  unfold TextureFile_ctor, TextureFile_open, ImageInput_create.
  cbn [opened TextureFile_new m_input m_broken m_filename]. rewrite Hd.
  cbn [mbind result_bind]. intros [= <-].
  set (tf := use (set_broken true (TextureFile_new filename))).
  assert (Hl : <[filename := tf]> (m_texturefiles sys1) !! filename = Some tf)
    by apply amap_lookup_insert_eq.
  split.
  - exists tf. cbn [m_texturefiles set_files]. split; [exact Hl|]. cbn. auto.
  - intros fuel' disk'. unfold find_texturefile. cbn [m_texturefiles set_files].
    rewrite Hl. cbn [m_open_files set_files].
    change (use tf) with tf. rewrite (amap_insert_same _ _ _ Hl). reflexivity.
Qed.

Lemma find_texturefile_missing_is_remembered_witness :
  find_texturefile 0 Scenario.disk TextureSystemImpl_new "does-not-exist.tx"
  = Ok Scenario.missing_sys
  /\ find_texturefile 0 {[ "does-not-exist.tx"%string := Scenario.checker ]}
       Scenario.missing_sys "does-not-exist.tx"
     = Ok Scenario.missing_sys.
Proof.
  assert (H : find_texturefile 0 Scenario.disk TextureSystemImpl_new "does-not-exist.tx"
              = Ok Scenario.missing_sys) by (vm_compute; reflexivity).
  split; [exact H|].
  apply (find_texturefile_missing_is_remembered 0 Scenario.disk TextureSystemImpl_new
           Scenario.missing_sys "does-not-exist.tx" eq_refl eq_refl H).
Defined.

(** X14. [find_texturefile] never erases or re-reads what is registered: when a
    call returns, every file that had an entry still has one, with the
    metadata and the broken flag it had (only its used flag and its reader
    may have changed), the requested file has an entry, and the tile cache is
    untouched. *)
Theorem find_texturefile_keeps_entries
    (fuel : nat) (disk : Disk) (sys sys' : TextureSystemImpl) (filename : string) :
  find_texturefile fuel disk sys filename = Ok sys' ->
  is_Some (m_texturefiles sys' !! filename)
  /\ tilecache sys' = tilecache sys
  /\ forall g tf, m_texturefiles sys !! g = Some tf ->
       exists tf', m_texturefiles sys' !! g = Some tf'
                   /\ metadata tf' = metadata tf /\ m_broken tf' = m_broken tf.
Proof.
  unfold find_texturefile.
  destruct (m_texturefiles sys !! filename) as [tf0|] eqn:Hf.
  - intros [= <-]. cbn [m_texturefiles set_files tilecache].
    split; [rewrite amap_lookup_insert_eq; eauto|]. split; [reflexivity|].
    intros g tf Hg. destruct (decide (filename = g)) as [<-|Hne].
    + rewrite amap_lookup_insert_eq. exists (use tf0).
      assert (tf = tf0) by congruence. subst tf. auto.
    + rewrite amap_lookup_insert_ne by exact Hne. eauto.
  - destruct (check_max_files fuel sys) as [sys1|f] eqn:Hchk; [|discriminate].
    cbn [mbind result_bind].
    destruct (TextureFile_ctor disk filename (m_open_files sys1)) as [[tf1 n1]|f];
      [|discriminate].
    cbn [mbind result_bind]. intros [= <-]. cbn [m_texturefiles set_files tilecache].
    apply check_max_files_keeps in Hchk as (Hc & _ & _ & Hnone & Hsome).
    split; [rewrite amap_lookup_insert_eq; eauto|]. split; [exact Hc|].
    intros g tf Hg. destruct (decide (filename = g)) as [<-|Hne]; [congruence|].
    rewrite amap_lookup_insert_ne by exact Hne.
    destruct (Hsome g tf Hg) as (tf' & Hl & Hm & Hb). eauto.
Qed.

Lemma find_texturefile_keeps_entries_witness :
  find_texturefile 2 Scenario.disk Scenario.single_first "wrapped.tx"
  = Ok Scenario.single_swept
  /\ exists tf', m_texturefiles Scenario.single_swept !! "checker.tx"%string = Some tf'
                 /\ metadata tf' = metadata Scenario.checker_tf
                 /\ m_broken tf' = m_broken Scenario.checker_tf.
Proof.
  assert (H : find_texturefile 2 Scenario.disk Scenario.single_first "wrapped.tx"
              = Ok Scenario.single_swept) by (vm_compute; reflexivity).
  split; [exact H|].
  destruct (find_texturefile_keeps_entries 2 Scenario.disk Scenario.single_first
              Scenario.single_swept "wrapped.tx" H) as (_ & _ & Hkeep).
  apply (Hkeep "checker.tx"%string Scenario.checker_tf). vm_compute. reflexivity.
Defined.

(** X15. The counter of open files is the number of registered files that hold
    a reader: when [m_open_files] agrees with the registry before a call to
    [find_texturefile] or [find_tile], it agrees after, whether the call has
    closed files, opened one, reopened one, or failed to. *)
Theorem open_files_counts_registry
    (fuel : nat) (disk : Disk) (sys : TextureSystemImpl) :
  counted sys ->
  (forall filename sys',
     find_texturefile fuel disk sys filename = Ok sys' -> counted sys')
  /\ (forall id tile sys',
        find_tile disk sys id = Ok (tile, sys') -> counted sys').
Proof.
  intros Hcnt. split.
  - intros filename sys'. unfold find_texturefile.
    destruct (m_texturefiles sys !! filename) as [tf0|] eqn:Hf.
    + intros [= <-]. unfold counted in *. cbn [m_open_files m_texturefiles set_files].
      rewrite open_entries_insert, Hf. unfold readers, opened, use. cbn [m_input set_used].
      lia.
    + destruct (check_max_files fuel sys) as [sys1|f] eqn:Hchk; [|discriminate].
      cbn [mbind result_bind].
      destruct (TextureFile_ctor disk filename (m_open_files sys1)) as [[tf1 n1]|f]
        eqn:Hctor; [|discriminate].
      cbn [mbind result_bind]. intros [= <-].
      apply check_max_files_keeps in Hchk as (_ & _ & Hcnt1 & Hnone & _).
      specialize (Hcnt1 Hcnt). specialize (Hnone filename Hf).
      apply open_readers in Hctor.
      unfold counted in *. cbn [m_open_files m_texturefiles set_files].
      rewrite open_entries_insert, Hnone.
      unfold readers, opened, use in *. cbn [m_input set_used TextureFile_new] in *.
      lia.
  - intros id tile sys'. unfold find_tile.
    destruct (tilecache sys !! id); [intros [= _ <-]; exact Hcnt|].
    unfold Tile_ctor.
    destruct (m_texturefiles sys !! tid_texfile id) as [texfile|] eqn:Hf; [|discriminate].
    destruct (m_spec texfile); [discriminate|].
    destruct (TextureFile_read_tile _ _ _ _ _ _ _) as [[[tf' n'] r]|f] eqn:Hrt;
      [|discriminate].
    cbn [mbind result_bind]. intros [= _ <-].
    apply read_tile_readers in Hrt.
    unfold counted in *. cbn [m_open_files m_texturefiles set_files set_tilecache].
    rewrite open_entries_insert, Hf. lia.
Qed.

Lemma open_files_counts_registry_witness :
  counted Scenario.single_swept
  /\ find_tile Scenario.disk Scenario.single_swept (mkTileID "checker.tx" 0 0 0 0)
     = Ok (Scenario.checker_tile, Scenario.single_reread)
  /\ counted Scenario.single_reread.
Proof.
  assert (Hc : counted Scenario.single_swept) by (vm_compute; reflexivity).
  assert (H : find_tile Scenario.disk Scenario.single_swept (mkTileID "checker.tx" 0 0 0 0)
              = Ok (Scenario.checker_tile, Scenario.single_reread))
    by (vm_compute; reflexivity).
  split; [exact Hc|]. split; [exact H|].
  exact (proj2 (open_files_counts_registry 0 Scenario.disk Scenario.single_swept Hc)
           _ _ _ H).
Defined.

(** ** The tile cache *)

(** X17. A tile is built once.  When [find_tile] returns, the tile it returns
    is cached under the requested id; asking again returns the same tile and
    changes nothing, whatever the disk holds by then, and opens or reads no
    file. *)
Theorem find_tile_again_is_a_hit
    (disk disk' : Disk) (sys sys' : TextureSystemImpl) (id : TileID) (tile : Tile) :
  find_tile disk sys id = Ok (tile, sys') ->
  find_tile disk' sys' id = Ok (tile, sys').
Proof.
  intros H. apply find_tile_hit.
  destruct (tilecache sys !! id) as [t0|] eqn:Hc.
  - rewrite (find_tile_hit disk sys id t0 Hc) in H. injection H as <- <-. exact Hc.
  - destruct (find_tile_miss disk sys sys' id tile Hc H) as [-> _].
    apply amap_lookup_insert_eq.
Qed.

Lemma find_tile_again_is_a_hit_witness :
  find_tile Scenario.disk Scenario.checker_sys (mkTileID "checker.tx" 0 0 0 0)
  = Ok (Scenario.checker_tile, Scenario.checker_sys1)
  /\ find_tile ∅ Scenario.checker_sys1 (mkTileID "checker.tx" 0 0 0 0)
     = Ok (Scenario.checker_tile, Scenario.checker_sys1).
Proof.
  assert (H : find_tile Scenario.disk Scenario.checker_sys (mkTileID "checker.tx" 0 0 0 0)
              = Ok (Scenario.checker_tile, Scenario.checker_sys1))
    by (vm_compute; reflexivity).
  split; [exact H|].
  exact (find_tile_again_is_a_hit Scenario.disk ∅ _ _ _ _ H).
Defined.

(** X18. A failed read is cached as a valid tile of zeros.  When the reader of
    an open file, standing on the level asked for, cannot read the tile,
    [find_tile] still returns: the tile has a buffer of
    [tile_pixels * nchannels] zeros, is marked valid, and is inserted in the
    cache, so the read is never tried again. *)
Theorem find_tile_failed_read_is_cached
    (disk : Disk) (sys : TextureSystemImpl) (id : TileID) (tf : TextureFile)
    (inp : ImageInput) (spec : ImageIOFormatSpec) (specs : list ImageIOFormatSpec) :
  tilecache sys !! id = None ->
  m_texturefiles sys !! tid_texfile id = Some tf ->
  m_input tf = Some inp ->
  m_spec tf = spec :: specs ->
  in_subimage inp = tid_level id ->
  img_tile (in_image inp) (tid_level id) (tid_x id) (tid_y id) (tid_z id) = None ->
  let zeros :=
    mkTile id (replicate (Z.to_nat (tile_pixels spec * nchannels spec)) F32.zero)
      true true in
  exists sys',
    find_tile disk sys id = Ok (zeros, sys')
    /\ tilecache sys' = <[id := zeros]> (tilecache sys)
    /\ m_open_files sys' = m_open_files sys
    /\ forall disk', find_tile disk' sys' id = Ok (zeros, sys').
Proof.
  intros Hc Hf Hi Hs Hlevel Hnone zeros.
  assert (Hft : find_tile disk sys id
                = Ok (zeros,
                      set_tilecache (<[id := zeros]> (tilecache sys))
                        (set_files (<[tid_texfile id := set_input (Some inp) tf]>
                                      (m_texturefiles sys))
                           (m_open_files sys) sys))).
  { unfold find_tile, Tile_ctor, TextureFile_read_tile.
    rewrite Hc, Hf, Hs.
    rewrite (open_opened disk tf (m_open_files sys))
      by (unfold opened; rewrite Hi; reflexivity).
    cbn [mbind result_bind]. rewrite Hi, Hlevel, Z.eqb_refl. cbn [negb].
    unfold ImageInput_read_tile. rewrite Hlevel, Hnone.
    cbn [mbind result_bind]. reflexivity. }
  eexists. split; [exact Hft|]. split; [reflexivity|]. split; [reflexivity|].
  intros disk'. apply find_tile_hit. cbn [tilecache set_tilecache].
  apply amap_lookup_insert_eq.
Qed.

Lemma find_tile_failed_read_is_cached_witness :
  img_tile Scenario.checker 0 2 0 0 = None
  /\ exists sys',
       find_tile Scenario.disk Scenario.checker_sys (mkTileID "checker.tx" 0 2 0 0)
       = Ok (Scenario.checker_outside_tile, sys')
       /\ tilecache sys'
          = <[mkTileID "checker.tx" 0 2 0 0 := Scenario.checker_outside_tile]>
              (tilecache Scenario.checker_sys)
       /\ m_open_files sys' = m_open_files Scenario.checker_sys
       /\ forall disk',
            find_tile disk' sys' (mkTileID "checker.tx" 0 2 0 0)
            = Ok (Scenario.checker_outside_tile, sys').
Proof.
  split; [reflexivity|].
  exact (find_tile_failed_read_is_cached Scenario.disk Scenario.checker_sys
           (mkTileID "checker.tx" 0 2 0 0) Scenario.checker_tf
           (mkImageInput Scenario.checker 0) Scenario.checker_spec []
           eq_refl eq_refl eq_refl eq_refl eq_refl eq_refl).
Defined.

(** ** Queries *)

(** The general case stores nothing when it returns [false]. *)
Lemma gettextureinfo_attribute_false spec dataname datatype st :
  gettextureinfo_attribute spec dataname datatype = Ok (false, st) -> st = None.
Proof.
  unfold gettextureinfo_attribute.
  destruct (find_attribute spec dataname) as [p|]; [|intros [= <-]; reflexivity].
  destruct (p_nvalues p =? arraylen datatype); [|intros [= <-]; reflexivity].
  destruct (bool_decide (p_type p = basetype datatype)).
  { destruct (_ <=? _)%nat; discriminate. }
  destruct (bool_decide (p_type p = PT_FLOAT) && bool_decide (basetype datatype = PT_INT)).
  - destruct (ints_as_floats _ _ _); discriminate.
  - intros [= <-]. reflexivity.
Qed.

(** X20. [gettextureinfo] does to the system what [find_texturefile] does and
    nothing more, and writes through [data] only when it returns [true]:
    whenever it returns [false] (file not found, broken, attribute absent or
    of another type or length) nothing has been stored. *)
Theorem gettextureinfo_false_stores_nothing
    (fuel : nat) (disk : Disk) (sys sys' : TextureSystemImpl)
    (filename dataname : string) (datatype : ParamType) (ok : bool)
    (st : option Stored) :
  gettextureinfo fuel disk sys filename dataname datatype = Ok (sys', ok, st) ->
  find_texturefile fuel disk sys filename = Ok sys'
  /\ (ok = false -> st = None).
Proof.
  unfold gettextureinfo.
  destruct (find_texturefile fuel disk sys filename) as [sys1|f]; [|discriminate].
  cbn [mbind result_bind].
  destruct (m_texturefiles sys1 !! filename) as [texfile|];
    [|intros [= <- <- <-]; auto].
  destruct (m_broken texfile); [intros [= <- <- <-]; auto|].
  destruct (m_spec texfile) as [|spec specs]; [discriminate|].
  repeat match goal with
         | |- (if ?c then _ else _) = _ -> _ =>
             destruct c; [intros [= <- <- <-]; split; [reflexivity|discriminate]|]
         end.
  destruct (gettextureinfo_attribute spec dataname datatype) as [[ok1 st1]|f] eqn:Ha;
    [|discriminate].
  cbn [mbind result_bind]. intros [= <- <- <-]. split; [reflexivity|].
  intros ->. exact (gettextureinfo_attribute_false _ _ _ _ Ha).
Qed.

Lemma gettextureinfo_false_stores_nothing_witness :
  gettextureinfo 0 Scenario.disk TextureSystemImpl_new "checker.tx" "samples"
    (ParamType_scalar PT_INT) = Ok (Scenario.checker_sys, false, None)
  /\ find_texturefile 0 Scenario.disk TextureSystemImpl_new "checker.tx"
     = Ok Scenario.checker_sys.
Proof.
  assert (H : gettextureinfo 0 Scenario.disk TextureSystemImpl_new "checker.tx" "samples"
                (ParamType_scalar PT_INT) = Ok (Scenario.checker_sys, false, None))
    by (vm_compute; reflexivity).
  split; [exact H|].
  exact (proj1 (gettextureinfo_false_stores_nothing _ _ _ _ _ _ _ _ _ H)).
Defined.

(** The two uses of [texture_format_name] are inverse to each other: the
    entry at the index [open] finds for a name is that name. *)
Lemma texture_format_name_inverse (name : string) (f : TexFormat) :
  lookup_name texture_format_name name = Some f ->
  List.find (fun e => bool_decide (e.1 = f)) texture_format_name = Some (f, name).
Proof.
  unfold texture_format_name. cbn [lookup_name].
  repeat match goal with
         | |- (if String.eqb name ?n then _ else _) = _ -> _ =>
             destruct (String.eqb_spec name n) as [->|_];
             [intros [= <-]; vm_compute; reflexivity|]
         end.
  discriminate.
Qed.

(** The constructor returns on a file that opens and whose subimages all
    have the channel count of the first. *)
Lemma ctor_returns disk filename n img spec0 rest :
  disk !! filename = Some img ->
  img_opens img = true ->
  img_subimages img = spec0 :: rest ->
  Forall (fun s => nchannels s = nchannels spec0) rest ->
  exists inp',
    TextureFile_ctor disk filename n
    = Ok (first_open_fields
            (use (set_input (Some (mkImageInput img 0)) (TextureFile_new filename)))
            inp' (spec0 :: rest) spec0, n + 1).
Proof.
  intros Hd Ho Hsub Hall.
  unfold TextureFile_ctor, TextureFile_open, ImageInput_create, ImageInput_open.
  cbn [opened TextureFile_new m_input m_broken m_filename].
  rewrite Hd. cbn [in_image]. rewrite Ho, Hsub.
  cbn [use set_input set_used m_spec in_image]. rewrite Hsub.
  destruct (read_subimages_all (length rest) (length (spec0 :: rest))
              (mkImageInput img 0) 0 spec0 spec0 rest)
    as (inp' & Hr & _); auto; [simpl; lia|].
  change (Z.of_nat 0) with 0 in Hr. cbn [take] in Hr. rewrite Hr.
  cbn [mbind result_bind]. exists inp'. reflexivity.
Qed.

(** X21. The texture format name survives the round trip through the enum.
    On the first reference, with fewer than [max_open_files] files open, to a
    file that opens, whose subimages all have the channel count of the first
    and whose first subimage declares, as its "textureformat" string, one of
    the eight names of [texture_format_name], [gettextureinfo] of
    "textureformat" returns, returns [true], and stores that very name. *)
Theorem textureformat_round_trip
    (fuel : nat) (disk : Disk) (sys : TextureSystemImpl) (filename : string)
    (img : ImageFile) (spec0 : ImageIOFormatSpec) (rest : list ImageIOFormatSpec)
    (p : ImageIOParameter) (f : TexFormat) :
  m_texturefiles sys !! filename = None ->
  m_open_files sys < m_max_open_files sys ->
  disk !! filename = Some img ->
  img_opens img = true ->
  img_subimages img = spec0 :: rest ->
  Forall (fun s => nchannels s = nchannels spec0) rest ->
  find_attribute spec0 "textureformat" = Some p ->
  p_type p = PT_STRING ->
  p_nvalues p = 1 ->
  lookup_name texture_format_name (cstring (p_data p)) = Some f ->
  exists sys',
    gettextureinfo fuel disk sys filename "textureformat" (ParamType_scalar PT_STRING)
    = Ok (sys', true, Some (StoredString (cstring (p_data p))))
    /\ find_texturefile fuel disk sys filename = Ok sys'.
Proof.
  intros Hf Hbelow Hd Ho Hsub Hall Hp Ht Hn Hname.
  unfold gettextureinfo, find_texturefile. rewrite Hf.
  rewrite (check_max_files_below fuel sys Hbelow).
  cbn [mbind result_bind].
  destruct (ctor_returns disk filename (m_open_files sys) img spec0 rest
              Hd Ho Hsub Hall) as (inp' & ->).
  cbn [mbind result_bind m_texturefiles set_files].
  rewrite amap_lookup_insert_eq.
  set (tf := first_open_fields _ inp' (spec0 :: rest) spec0).
  assert (Hfmt : m_texformat tf = f).
  { unfold tf, first_open_fields. rewrite Hp, Ht, Hn, Hname.
    destruct (match find_attribute spec0 "wrapmodes" with
              | Some p => _ | None => _ end) as [sw tw].
    reflexivity. }
  assert (Hspec : m_spec tf = spec0 :: rest).
  { unfold tf, first_open_fields.
    destruct (match find_attribute spec0 "wrapmodes" with
              | Some p => _ | None => _ end) as [sw tw].
    reflexivity. }
  assert (Hbroken : m_broken tf = false).
  { unfold tf. rewrite first_open_fields_broken. reflexivity. }
  clearbody tf.
  unfold use. cbn [m_broken set_used m_spec m_texformat].
  rewrite Hbroken, Hspec, Hfmt.
  change (String.eqb "textureformat" "resolution") with false.
  change (String.eqb "textureformat" "texturetype") with false.
  change (String.eqb "textureformat" "textureformat") with true.
  cbn [andb]. rewrite bool_decide_eq_true_2 by reflexivity.
  rewrite (texture_format_name_inverse _ _ Hname). cbn [snd].
  eexists. split; reflexivity.
Qed.

Lemma textureformat_round_trip_witness :
  gettextureinfo 0 Scenario.disk TextureSystemImpl_new "cube.tx" "textureformat"
    (ParamType_scalar PT_STRING)
  = Ok (Scenario.cube_sys, true, Some (StoredString "CubeFace Environment")).
Proof.
  destruct (textureformat_round_trip 0 Scenario.disk TextureSystemImpl_new
              "cube.tx" Scenario.cube Scenario.cube_spec []
              (mkParam "textureformat" PT_STRING 1
                 (Scenario.nul_terminated "CubeFace Environment"))
              TexFormatCubeFaceEnv
              eq_refl ltac:(cbn; lia) eq_refl eq_refl eq_refl (Forall_nil_2 _)
              eq_refl eq_refl eq_refl eq_refl)
    as (sys' & Hget & Hfind).
  assert (Hsys : sys' = Scenario.cube_sys).
  { assert (H : find_texturefile 0 Scenario.disk TextureSystemImpl_new "cube.tx"
                = Ok Scenario.cube_sys) by (vm_compute; reflexivity).
    congruence. }
  rewrite Hget, Hsys. vm_compute. reflexivity.
Defined.

(** ** Sampling *)

(** X23. A call on a file that is neither registered nor on the disk: the
    caller's options are returned as they were passed, the outputs are what
    the fill loop of the not-found path writes, the file is registered as
    broken, and no tile is fetched. *)
Theorem texture_missing_file_leaves_options
    (fuel : nat) (disk : Disk) (sys sys' : TextureSystemImpl) (filename : string)
    (options options' : TextureOptions) (runflags : list bool)
    (firstactive lastactive : Z) (s t : VaryingRef) (mem mem' : Mem) :
  m_texturefiles sys !! filename = None ->
  disk !! filename = None ->
  texture fuel disk sys filename options runflags firstactive lastactive s t mem
  = Ok (sys', options', mem') ->
  options' = options
  /\ texture_fill_broken options runflags firstactive lastactive mem = Ok mem'
  /\ tilecache sys' = tilecache sys
  /\ exists tf, m_texturefiles sys' !! filename = Some tf
                /\ m_broken tf = true /\ m_input tf = None.
Proof.
  intros Hf Hd. unfold texture, find_texturefile. rewrite Hf.
  destruct (check_max_files fuel sys) as [sys1|e] eqn:Hchk; [|discriminate].
  cbn [mbind result_bind].
  unfold TextureFile_ctor, TextureFile_open, ImageInput_create.
  cbn [opened TextureFile_new m_input m_broken m_filename]. rewrite Hd.
  cbn [mbind result_bind m_texturefiles set_files].
  rewrite amap_lookup_insert_eq. cbn [m_broken use set_used set_broken].
  destruct (texture_fill_broken options runflags firstactive lastactive mem)
    as [mem1|e]; [|discriminate].
  cbn [mbind result_bind]. intros [= <- <- <-].
  apply check_max_files_keeps in Hchk as (Hc & _).
  split; [reflexivity|]. split; [reflexivity|]. split; [exact Hc|].
  eexists. cbn [m_texturefiles set_files].
  split; [apply amap_lookup_insert_eq|]. split; reflexivity.
Qed.

Lemma texture_missing_file_leaves_options_witness :
  let options := Scenario.options 1 WrapDefault WrapDefault (F32.lit 1 4) (Some 1) in
  texture 0 Scenario.disk TextureSystemImpl_new "does-not-exist.tx" options
    [true] 0 0 (Scenario.uniform F32.zero) (Scenario.uniform F32.zero)
    (mkMem [F32.zero] [F32.zero])
  = Ok (Scenario.missing_sys, options, mkMem [F32.lit 1 4] [F32.lit 1 4])
  /\ tilecache Scenario.missing_sys = tilecache TextureSystemImpl_new.
Proof.
  intros options.
  assert (H : texture 0 Scenario.disk TextureSystemImpl_new "does-not-exist.tx" options
                [true] 0 0 (Scenario.uniform F32.zero) (Scenario.uniform F32.zero)
                (mkMem [F32.zero] [F32.zero])
              = Ok (Scenario.missing_sys, options, mkMem [F32.lit 1 4] [F32.lit 1 4]))
    by (vm_compute; reflexivity).
  split; [exact H|].
  exact (proj1 (proj2 (proj2 (texture_missing_file_leaves_options 0 Scenario.disk
                                TextureSystemImpl_new Scenario.missing_sys
                                "does-not-exist.tx" options options [true] 0 0
                                (Scenario.uniform F32.zero) (Scenario.uniform F32.zero)
                                (mkMem [F32.zero] [F32.zero])
                                (mkMem [F32.lit 1 4] [F32.lit 1 4])
                                eq_refl eq_refl H)))).
Defined.

(** The low bits of a non-negative coordinate under a power-of-two mask are
    its remainder, and what is left is the start of its tile. *)
Lemma tile_origin (x w a : Z) :
  0 <= a -> w = 2 ^ a -> 0 <= x ->
  let o := x - Z.land x (w - 1) in
  0 <= o <= x /\ o mod w = 0 /\ x < o + w.
Proof.
  intros Ha -> Hx o. subst o.
  replace (2 ^ a - 1) with (Z.ones a) by (rewrite Z.ones_equiv; lia).
  rewrite Z.land_ones by exact Ha.
  assert (Hpos : 0 < 2 ^ a) by (apply Z.pow_pos_nonneg; lia).
  pose proof (Z.mod_pos_bound x (2 ^ a) Hpos) as Hm.
  pose proof (Z.div_mod x (2 ^ a) ltac:(lia)) as Hdm.
  split; [|split].
  - split; [|lia]. pose proof (Z.div_pos x (2 ^ a) Hx Hpos). nia.
  - replace (x - x mod 2 ^ a) with (x / 2 ^ a * 2 ^ a) by lia.
    apply Z.mod_mul. lia.
  - lia.
Qed.

(** X24. With power-of-two tile sizes, the only tile a lookup can add to the
    cache is the level-0 tile of the file that holds the texel looked up:
    its origin is a multiple of the tile size in each direction, lies inside
    the image, and the texel lies inside the tile. *)
Theorem texture_lookup_fetches_aligned_tile
    (disk : Disk) (sys sys' : TextureSystemImpl) (texturefile : string)
    (options : TextureOptions) (index : Z) (_s _t : VaryingRef) (resultp : Z)
    (mem mem' : Mem) (tf : TextureFile) (spec : ImageIOFormatSpec)
    (specs : list ImageIOFormatSpec) (a b : Z) (sv tv : float) :
  m_texturefiles sys !! texturefile = Some tf ->
  m_spec tf = spec :: specs ->
  0 <= a -> tile_width spec = 2 ^ a ->
  0 <= b -> tile_height spec = 2 ^ b ->
  vr_index _s index = Ok sv ->
  vr_index _t index = Ok tv ->
  texture_lookup disk sys texturefile options index _s _t resultp mem
  = Ok (sys', mem') ->
  forall id, tilecache sys !! id = None -> is_Some (tilecache sys' !! id) ->
    tid_texfile id = texturefile /\ tid_level id = 0 /\ tid_z id = 0
    /\ tid_x id mod tile_width spec = 0 /\ tid_y id mod tile_height spec = 0
    /\ 0 <= tid_x id <= texel_coord sv (width spec)
    /\ texel_coord sv (width spec) < Z.min (width spec) (tid_x id + tile_width spec)
    /\ 0 <= tid_y id <= texel_coord tv (height spec)
    /\ texel_coord tv (height spec) < Z.min (height spec) (tid_y id + tile_height spec).
Proof.
  intros Hf Hs Ha Hw Hb Hh Hsv Htv. unfold texture_lookup. rewrite Hsv.
  cbn [mbind result_bind].
  destruct (store_result mem _ sv) as [mem1|e]; [|discriminate].
  cbn [mbind result_bind]. rewrite Htv. cbn [mbind result_bind].
  destruct (store_result mem1 _ tv) as [mem2|e]; [|discriminate].
  cbn [mbind result_bind]. rewrite Hf, Hs.
  set (sint := texel_coord sv (width spec)).
  set (tint := texel_coord tv (height spec)).
  destruct ((sint <? 0) || (width spec <=? sint) || (tint <? 0) || (height spec <=? tint))
    eqn:Hout.
  { destruct (store_result mem2 _ F32.one) as [mem3|e]; [|discriminate].
    cbn [mbind result_bind]. intros [= <- <-] id Hnone [x Hx]. congruence. }
  apply orb_false_elim in Hout as [Hout Ht2].
  apply orb_false_elim in Hout as [Hout Ht1].
  apply orb_false_elim in Hout as [Hs1 Hs2].
  apply Z.ltb_ge in Hs1, Ht1. apply Z.leb_gt in Hs2, Ht2.
  set (id0 := mkTileID texturefile 0 _ _ 0).
  destruct (find_tile disk sys id0) as [[tile sys1]|e] eqn:Hft; [|discriminate].
  cbn [mbind result_bind].
  destruct (for_range 0 _ _ mem2) as [mem3|e]; [|discriminate].
  cbn [mbind result_bind].
  assert (Hsys : forall m, Ok (sys1, m) = Ok (sys', mem') ->
            forall id, tilecache sys !! id = None -> is_Some (tilecache sys' !! id) ->
              id = id0).
  { intros m [= <- _] id Hnone [x Hx].
    destruct (tilecache sys !! id0) as [t0|] eqn:Hc.
    - rewrite (find_tile_hit disk sys id0 t0 Hc) in Hft. injection Hft as _ <-.
      congruence.
    - destruct (find_tile_miss disk sys sys1 id0 tile Hc Hft) as [Hcache _].
      rewrite Hcache in Hx. destruct (decide (id0 = id)) as [->|Hne]; [reflexivity|].
      rewrite amap_lookup_insert_ne in Hx by exact Hne. congruence. }
  intros Hres id Hnone Hsome.
  assert (Hid : id = id0).
  { destruct (alpha options) as [step|].
    - destruct (load _ _) as [v|e]; [|discriminate]. cbn [mbind result_bind] in Hres.
      destruct (store_alpha mem3 _ v) as [mem4|e]; [|discriminate].
      cbn [mbind result_bind] in Hres. exact (Hsys _ Hres id Hnone Hsome).
    - exact (Hsys _ Hres id Hnone Hsome). }
  subst id. unfold id0. cbn [tid_texfile tid_level tid_x tid_y tid_z].
  destruct (tile_origin sint (tile_width spec) a Ha Hw Hs1) as (Hx1 & Hx2 & Hx3).
  destruct (tile_origin tint (tile_height spec) b Hb Hh Ht1) as (Hy1 & Hy2 & Hy3).
  repeat split; try assumption; lia.
Qed.

Lemma texture_lookup_fetches_aligned_tile_witness :
  texture_lookup Scenario.disk Scenario.checker_sys "checker.tx"
    (set_actualchannels 1 (Scenario.options 1 WrapBlack WrapBlack F32.zero None)) 0
    (Scenario.uniform F32.half) (Scenario.uniform F32.half) 0
    (mkMem [F32.one; F32.one] [])
  = Ok (Scenario.checker_sys1, mkMem [F32.zero; F32.half] [])
  /\ 0 mod tile_width Scenario.checker_spec = 0.
Proof.
  assert (H : texture_lookup Scenario.disk Scenario.checker_sys "checker.tx"
                (set_actualchannels 1
                   (Scenario.options 1 WrapBlack WrapBlack F32.zero None)) 0
                (Scenario.uniform F32.half) (Scenario.uniform F32.half) 0
                (mkMem [F32.one; F32.one] [])
              = Ok (Scenario.checker_sys1, mkMem [F32.zero; F32.half] []))
    by (vm_compute; reflexivity).
  split; [exact H|].
  destruct (texture_lookup_fetches_aligned_tile Scenario.disk Scenario.checker_sys
              Scenario.checker_sys1 "checker.tx"
              (set_actualchannels 1
                 (Scenario.options 1 WrapBlack WrapBlack F32.zero None)) 0
              (Scenario.uniform F32.half) (Scenario.uniform F32.half) 0
              (mkMem [F32.one; F32.one] []) (mkMem [F32.zero; F32.half] [])
              Scenario.checker_tf
              Scenario.checker_spec [] 1 1 F32.half F32.half
              eq_refl eq_refl ltac:(lia) eq_refl ltac:(lia) eq_refl eq_refl eq_refl H
              (mkTileID "checker.tx" 0 0 0 0) eq_refl (mk_is_Some _ _ eq_refl))
    as (_ & _ & _ & Hx & _).
  exact Hx.
Defined.

(** X25. The early out: when the first channel asked for is beyond the last
    channel of the file, a call that returns has stored [actualchannels = 0]
    in the options, has fetched no tile and has left the system as
    [find_texturefile] left it; the outputs come from the fill loops alone. *)
Theorem texture_no_channels_fetches_nothing
    (fuel : nat) (disk : Disk) (sys sys1 sys' : TextureSystemImpl)
    (filename : string) (options options' : TextureOptions)
    (runflags : list bool) (firstactive lastactive : Z) (s t : VaryingRef)
    (mem mem' : Mem) (tf : TextureFile) (spec : ImageIOFormatSpec)
    (specs : list ImageIOFormatSpec) :
  find_texturefile fuel disk sys filename = Ok sys1 ->
  m_texturefiles sys1 !! filename = Some tf ->
  m_broken tf = false ->
  m_spec tf = spec :: specs ->
  nchannels spec <= firstchannel options ->
  0 <= opt_nchannels options ->
  texture fuel disk sys filename options runflags firstactive lastactive s t mem
  = Ok (sys', options', mem') ->
  sys' = sys1 /\ actualchannels options' = 0.
Proof.
  intros Hfind Hf Hb Hs Hch Hn. unfold texture. rewrite Hfind.
  cbn [mbind result_bind]. rewrite Hf, Hb, Hs. unfold texture_unbroken.
  assert (Hclamp : clamp (nchannels spec - firstchannel options) 0
                     (opt_nchannels options) = 0).
  { unfold clamp. destruct (Z.ltb_spec (nchannels spec - firstchannel options) 0);
      [reflexivity|].
    destruct (Z.ltb_spec (opt_nchannels options)
                (nchannels spec - firstchannel options)); lia. }
  cbn [actualchannels set_actualchannels set_wraps opt_nchannels firstchannel alpha].
  rewrite Hclamp.
  destruct (if 0 <? opt_nchannels options then _ else _) as [mem1|e]; [|discriminate].
  cbn [mbind result_bind].
  destruct (alpha options) as [step|].
  - destruct (0 + 1 <? opt_nchannels options).
    + destruct (texture_fill_alpha _ step firstactive lastactive mem1) as [mem2|e];
        [|discriminate].
      cbn [mbind result_bind actualchannels set_alpha set_actualchannels].
      intros [= <- <- <-]. split; reflexivity.
    + cbn [mbind result_bind actualchannels set_actualchannels].
      intros [= <- <- <-]. split; reflexivity.
  - cbn [mbind result_bind actualchannels set_actualchannels].
    intros [= <- <- <-]. split; reflexivity.
Qed.

Lemma texture_no_channels_fetches_nothing_witness :
  let options :=
    mkTextureOptions 1 1 WrapBlack WrapBlack (Scenario.uniform F32.zero)
      (Scenario.uniform F32.zero) (Scenario.uniform F32.one)
      (Scenario.uniform F32.one) (Scenario.uniform F32.zero)
      (Scenario.uniform F32.half) None 0 false in
  texture 0 Scenario.disk TextureSystemImpl_new "checker.tx" options [true] 0 0
    (Scenario.uniform F32.half) (Scenario.uniform F32.half) (mkMem [F32.one] [])
  = Ok (Scenario.checker_sys, options, mkMem [F32.half] [])
  /\ tilecache Scenario.checker_sys = ∅.
Proof.
  intros options.
  assert (H : texture 0 Scenario.disk TextureSystemImpl_new "checker.tx" options
                [true] 0 0 (Scenario.uniform F32.half) (Scenario.uniform F32.half)
                (mkMem [F32.one] [])
              = Ok (Scenario.checker_sys, options, mkMem [F32.half] []))
    by (vm_compute; reflexivity).
  split; [exact H|].
  destruct (texture_no_channels_fetches_nothing 0 Scenario.disk TextureSystemImpl_new
              Scenario.checker_sys Scenario.checker_sys "checker.tx" options options
              [true] 0 0 (Scenario.uniform F32.half) (Scenario.uniform F32.half)
              (mkMem [F32.one] []) (mkMem [F32.half] []) Scenario.checker_tf
              Scenario.checker_spec [] ltac:(vm_compute; reflexivity)
              eq_refl eq_refl eq_refl ltac:(cbn; lia) ltac:(cbn; lia) H) as [_ _].
  reflexivity.
Defined.
